(** * ammonite: SimpleUpgrader

    A shallow embedding of [ammonite/SimpleUpgrader.py], a runner that
    applies versioned SQL upgrade scripts to a database and records each
    applied version in a changelog table.

    The file is laid out as follows.

    - [Py]: the pieces of Python's string, list and [os.path] behaviour the
      program relies on ([str.split], [int], [str.rstrip], [str.rfind],
      slicing, [list.sort], ["%d"] formatting, [os.path.join]).
    - [Upgrader]: the methods of [SimpleUpgrader], written against an
      abstract SQL engine and an abstract file system.  Exceptions are a sum
      type; the connection, its cursor and the console are threaded as state
      that survives a raised exception, as in Python.
    - [TreeFS] and [MiniDB]: a tree-shaped script store and an executable
      one-table database, on which the program can be run; [Inputs] holds
      the directories and databases used below.
    - Facts about the primitives, about loading the scripts of a version,
      about [perform_upgrade] on any database handle, and about
      [perform_upgrade] on the one-table database, followed by runs on
      concrete inputs. *)

From Stdlib Require Import ZArith List String Ascii Bool Lia.
From Stdlib Require Import DecimalString DecimalPos.
From Stdlib Require Import Permutation Sorted.
Import ListNotations.

Local Open Scope string_scope.
Local Open Scope Z_scope.

(* ===================================================================== *)
(** * Python primitives *)
(* ===================================================================== *)

Module Py.

(** Exceptions.  Each one carries the text [str(e)] would give.  The
    constructor [Exception] is the plain [Exception(msg)] the program
    itself raises; [DatabaseError] is whatever the database handle raises
    from [execute]. *)
Inductive exn : Type :=
| IOError (errno : Z) (text : string)
| OSError (errno : Z) (text : string)
| ValueError (text : string)
| TypeError (text : string)
| IndexError (text : string)
| Exception (text : string)
| DatabaseError (text : string).

Definition str_exn (e : exn) : string :=
  match e with
  | IOError _ t | OSError _ t | ValueError t | TypeError t
  | IndexError t | Exception t | DatabaseError t => t
  end.

(** A computation that returns or raises. *)
Definition result (A : Type) : Type := (exn + A)%type.
Definition ok {A} (a : A) : result A := inr a.
Definition raise {A} (e : exn) : result A := inl e.

Definition bindE {A B} (m : result A) (k : A -> result B) : result B :=
  match m with
  | inl e => inl e
  | inr a => k a
  end.

(** [[f(x) for x in xs]], stopping at the first element on which [f]
    raises. *)
Fixpoint mapE {A B} (f : A -> result B) (xs : list A) : result (list B) :=
  match xs with
  | [] => ok []
  | x :: rest =>
      bindE (f x) (fun y => bindE (mapE f rest) (fun ys => ok (y :: ys)))
  end.

(** ** Strings *)

Definition chr_eqb (a b : ascii) : bool := Ascii.eqb a b.

(** [s.split(sep)] for a one-character separator. *)
Fixpoint split (sep : ascii) (s : string) : list string :=
  match s with
  | EmptyString => [EmptyString]
  | String c rest =>
      if chr_eqb c sep then EmptyString :: split sep rest
      else match split sep rest with
           | h :: t => String c h :: t
           | [] => [String c EmptyString]
           end
  end.

(** [c in s] for a character [c]. *)
Fixpoint contains (c : ascii) (s : string) : bool :=
  match s with
  | EmptyString => false
  | String d rest => (chr_eqb d c || contains c rest)%bool
  end.

(** [c.isspace()] for a byte string: space, tab, newline, vertical tab,
    form feed, carriage return. *)
Definition isspace (c : ascii) : bool :=
  let n := nat_of_ascii c in
  (Nat.eqb n 32 || (Nat.leb 9 n && Nat.leb n 13))%bool.

Definition is_empty (s : string) : bool :=
  match s with EmptyString => true | _ => false end.

(** [s.rstrip()]. *)
Fixpoint rstrip (s : string) : string :=
  match s with
  | EmptyString => EmptyString
  | String c rest =>
      let rest' := rstrip rest in
      if (is_empty rest' && isspace c)%bool then EmptyString
      else String c rest'
  end.

(** [s.lstrip()]. *)
Fixpoint lstrip (s : string) : string :=
  match s with
  | EmptyString => EmptyString
  | String c rest => if isspace c then lstrip rest else s
  end.

Definition strip (s : string) : string := rstrip (lstrip s).

Definition len (s : string) : Z := Z.of_nat (String.length s).

(** [s.rfind(c)]: the highest index at which [c] occurs, or [-1]. *)
Fixpoint rfind_from (c : ascii) (s : string) (i : Z) (best : Z) : Z :=
  match s with
  | EmptyString => best
  | String d rest =>
      rfind_from c rest (i + 1) (if chr_eqb d c then i else best)
  end.

Definition rfind (c : ascii) (s : string) : Z := rfind_from c s 0 (-1).

(** [s[:k]]; a negative [k] counts from the end. *)
Definition slice_to (s : string) (k : Z) : string :=
  let stop := if k <? 0 then Z.max 0 (len s + k) else k in
  String.substring 0 (Z.to_nat stop) s.

(** [sep.join(parts)]. *)
Fixpoint join (sep : string) (parts : list string) : string :=
  match parts with
  | [] => EmptyString
  | [p] => p
  | p :: rest => p ++ sep ++ join sep rest
  end.

Definition startswith (p s : string) : bool := String.prefix p s.

Fixpoint last_char (s : string) : option ascii :=
  match s with
  | EmptyString => None
  | String c EmptyString => Some c
  | String _ rest => last_char rest
  end.

(** ** Integers and text *)

(** [str(n)] and ["%d" % n]. *)
Definition str_int (n : Z) : string := NilZero.string_of_int (Z.to_int n).

Definition digit_of (c : ascii) : option Z :=
  let n := nat_of_ascii c in
  if (Nat.leb 48 n && Nat.leb n 57)%bool then Some (Z.of_nat n - 48)
  else None.

(** The value of a string of decimal digits, given the value [acc] of the
    digits already read; [None] on any other character. *)
Fixpoint digits_from (acc : Z) (s : string) : option Z :=
  match s with
  | EmptyString => Some acc
  | String c rest =>
      match digit_of c with
      | Some d => digits_from (10 * acc + d) rest
      | None => None
      end
  end.

Definition digits (s : string) : option Z :=
  match s with
  | EmptyString => None
  | _ => digits_from 0 s
  end.

(** [int(s)] in base ten: surrounding white space is ignored, one sign is
    allowed, and at least one digit is required.  [None] stands for the
    [ValueError] Python raises. *)
Definition parse_int (s : string) : option Z :=
  match strip s with
  | String "-" body => option_map Z.opp (digits body)
  | String "+" body => digits body
  | body => digits body
  end.

Definition int (s : string) : result Z :=
  match parse_int s with
  | Some n => ok n
  | None => raise (ValueError ("invalid literal for int() with base 10: " ++ s))
  end.

(** ** Sorting

    [list.sort] is stable, so its outcome is determined by the order on
    the keys; insertion sort that places an element before the first one
    that is not smaller computes it. *)

Section Sort.
Context {A K : Type}.
Variable key : A -> K.
Variable lt : K -> K -> bool.

Fixpoint insert (x : A) (l : list A) : list A :=
  match l with
  | [] => [x]
  | y :: rest =>
      if lt (key y) (key x) then y :: insert x rest else x :: y :: rest
  end.

Fixpoint sort_by (l : list A) : list A :=
  match l with
  | [] => []
  | x :: rest => insert x (sort_by rest)
  end.
End Sort.

(** [l.sort()] on strings: byte-wise lexicographic order. *)
Definition sort_strings (l : list string) : list string :=
  sort_by (fun s => s) String.ltb l.

(** [False < True]. *)
Definition bool_lt (a b : bool) : bool := (negb a && b)%bool.

(** ** Paths *)

(** [os.path.join(a, b)] on POSIX. *)
Definition path_join (a b : string) : string :=
  if startswith "/" b then b
  else if is_empty a then b
  else match last_char a with
       | Some "/"%char => a ++ b
       | _ => a ++ "/" ++ b
       end.

(** [template.format(arg)], for templates whose only braces are the
    replacement field [{0}]. *)
Fixpoint format0 (template arg : string) : string :=
  match template with
  | String "{" (String "0" (String "}" rest)) => arg ++ format0 rest arg
  | String c rest => String c (format0 rest arg)
  | EmptyString => EmptyString
  end.

(** The lines of a text file as iteration over the file object yields
    them: each keeps its terminating newline. *)
Fixpoint lines_from (cur : string) (s : string) : list string :=
  match s with
  | EmptyString => if is_empty cur then [] else [cur]
  | String c rest =>
      if chr_eqb c "010" then (cur ++ String c EmptyString) :: lines_from EmptyString rest
      else lines_from (cur ++ String c EmptyString) rest
  end.

Definition readlines (s : string) : list string := lines_from EmptyString s.

(** [l[-1]]. *)
Definition last_item {A} (l : list A) : option A := List.last (map Some l) None.

(** [xrange(a, b)]. *)
Definition xrange (a b : Z) : list Z :=
  map (fun k => a + Z.of_nat k) (seq 0 (Z.to_nat (b - a))).

End Py.

Import Py.


(* ===================================================================== *)
(** * The program *)
(* ===================================================================== *)

Module Upgrader.

Definition nl : string := String "010" EmptyString.

(** ** Module constants *)

Definition FILE_MANIFEST : string := "_manifest".
Definition SCRIPT_EXT : string := ".sql".
Definition TABLE_NAME : string := "schema_changelog".

Definition STRUCTURE_MYSQL : string :=
  nl ++ "CREATE TABLE `{0}` (" ++ nl
     ++ "  `id` int(11) unsigned NOT NULL," ++ nl
     ++ "  `applied` timestamp NOT NULL DEFAULT CURRENT_TIMESTAMP," ++ nl
     ++ "  PRIMARY KEY (`id`)" ++ nl
     ++ ") ENGINE=InnoDB DEFAULT CHARSET=utf8;" ++ nl.

Definition STRUCTURE_SQLITE3 : string :=
  nl ++ "CREATE TABLE {0} (" ++ nl
     ++ "    id int," ++ nl
     ++ "    applied text default datetime" ++ nl
     ++ ")".

(** The dictionary [TABLE_STRUCTURE]. *)
Definition TABLE_STRUCTURE (db_type : string) : option string :=
  if String.eqb db_type "mysql" then Some STRUCTURE_MYSQL
  else if String.eqb db_type "sqlite3" then Some STRUCTURE_SQLITE3
  else None.

(** ** The two collaborators *)

(** What a statement leaves in the cursor: the rows to fetch and
    [cursor.rowcount].  A cell is an integer or SQL [NULL]. *)
Definition row : Type := list (option Z).

Record cursor_result : Type := {
  res_rows : list row;
  res_rowcount : Z
}.

(** The script store: [os.listdir] and [open(path).read()]. *)
Record FileSystem : Type := {
  listdir : string -> result (list string);
  open_read : string -> result string
}.

(** The fields of a [SimpleUpgrader] that never change; the connection and
    its cursor live in the state below. *)
Record SimpleUpgrader : Type := {
  directory : string;
  table : string * string
}.

(** [SimpleUpgrader.for_engine], up to the connection argument. *)
Definition for_engine (db_type upgrades_path table_name : string)
  : result SimpleUpgrader :=
  match TABLE_STRUCTURE db_type with
  | Some structure =>
      ok {| directory := upgrades_path; table := (table_name, structure) |}
  | None => raise (Exception ("unknown database requested " ++ db_type))
  end.

Definition get_table (u : SimpleUpgrader) : string := fst (table u).

(** The three statements the program builds itself. *)
Definition select_max_query (tbl : string) : string :=
  "SELECT MAX(id) FROM " ++ tbl.

Definition insert_query (tbl : string) (version : Z) : string :=
  "INSERT INTO " ++ tbl ++ " (id) VALUES (" ++ str_int version ++ ")".

Definition create_query (u : SimpleUpgrader) : string :=
  format0 (snd (table u)) (fst (table u)).

(** [script_prefix] is a static method and touches neither collaborator. *)
Definition script_prefix (filename : string) : result bool :=
  let fileparts := split "-" filename in
  let invalid := raise (Exception "invalid prefix") in
  if (1 <? Z.of_nat (List.length fileparts)) then
    match fileparts with
    | prefix :: _ =>
        match int prefix with
        | inr n => ok (0 <? n)
        | inl (ValueError _) => invalid
        | inl e => raise e
        end
    | [] => invalid
    end
  else invalid.

Section Methods.

(** The database behind the handle: what it holds, and what executing
    one SQL text does to it.  A statement that raises leaves the
    contents as they were. *)
Variable store : Type.
Variable engine : string -> store -> result (store * cursor_result).
Variable fs : FileSystem.

(** The connection with its single cursor.  [working] is what the open
    transaction sees, [committed] what a rollback returns to; [commit] and
    [rollback] themselves are taken not to raise. *)
Record connection : Type := {
  committed : store;
  working : store;
  fetched : list row;
  rowcount : Z
}.

(** Everything the program changes: the connection and the console
    (one entry per [print] call). *)
Record world : Type := {
  conn : connection;
  stdout : list string
}.

(** Stateful computations; the state is kept when one raises. *)
Definition M (A : Type) : Type := world -> result A * world.

Definition retM {A} (a : A) : M A := fun w => (ok a, w).
Definition raiseM {A} (e : exn) : M A := fun w => (raise e, w).
Definition liftE {A} (r : result A) : M A := fun w => (r, w).

Definition bindM {A B} (m : M A) (k : A -> M B) : M B :=
  fun w =>
    match m w with
    | (inl e, w') => (inl e, w')
    | (inr a, w') => k a w'
    end.

(** [try: m  except Exception as e: handler e]. *)
Definition tryM {A} (m : M A) (handler : exn -> M A) : M A :=
  fun w =>
    match m w with
    | (inl e, w') => handler e w'
    | (inr a, w') => (ok a, w')
    end.

Notation "x <- m ;; k" := (bindM m (fun x => k))
  (at level 61, m at next level, right associativity).
Notation "m ;;; k" := (bindM m (fun _ => k))
  (at level 61, right associativity).

Definition print (line : string) : M unit :=
  fun w => (ok tt, {| conn := conn w; stdout := (stdout w ++ [line])%list |}).

(** *** The database handle *)

Definition cursor_execute (sql : string) : M unit :=
  fun w =>
    let c := conn w in
    match engine sql (working c) with
    | inl e => (raise e, w)
    | inr (s, r) =>
        (ok tt,
         {| conn := {| committed := committed c; working := s;
                       fetched := res_rows r;
                       rowcount := res_rowcount r |};
            stdout := stdout w |})
    end.

(** [cursor.fetchone()]: the next row, or [None] when there is none. *)
Definition cursor_fetchone : M (option row) :=
  fun w =>
    let c := conn w in
    match fetched c with
    | [] => (ok None, w)
    | r :: rest =>
        (ok (Some r),
         {| conn := {| committed := committed c; working := working c;
                       fetched := rest; rowcount := rowcount c |};
            stdout := stdout w |})
    end.

Definition cursor_rowcount : M Z := fun w => (ok (rowcount (conn w)), w).

Definition connection_commit : M unit :=
  fun w =>
    let c := conn w in
    (ok tt,
     {| conn := {| committed := working c; working := working c;
                   fetched := fetched c; rowcount := rowcount c |};
        stdout := stdout w |}).

Definition connection_rollback : M unit :=
  fun w =>
    let c := conn w in
    (ok tt,
     {| conn := {| committed := committed c; working := committed c;
                   fetched := fetched c; rowcount := rowcount c |};
        stdout := stdout w |}).

(** *** Methods *)

Variable self : SimpleUpgrader.

Fixpoint apply_upgrade (upgrades : list (string * string)) : M unit :=
  match upgrades with
  | [] => retM tt
  | upgrade_tuple :: rest =>
      cursor_execute (snd upgrade_tuple) ;;;
      print (join " " [" >"; fst upgrade_tuple]) ;;;
      apply_upgrade rest
  end.

Definition create_version_record (version : Z) : M unit :=
  cursor_execute (insert_query (get_table self) version).

Definition create_version_table : M unit :=
  cursor_execute (create_query self).

Definition get_active_version : M Z :=
  executed <- tryM (cursor_execute (select_max_query (get_table self)) ;;;
                    retM true)
                   (fun _ => retM false) ;;
  if executed : bool then
    fetched_row <- cursor_fetchone ;;
    match fetched_row with
    | None => raiseM (TypeError "'NoneType' object has no attribute '__getitem__'")
    | Some [] => raiseM (IndexError "tuple index out of range")
    | Some (Some version :: _) => retM version
    | Some (None :: _) => retM 0
    end
  else retM (-1).

Definition get_available_upgrades : result (list string) :=
  bindE (listdir fs (directory self)) (fun versions =>
  ok (sort_strings versions)).

Definition get_latest_upgrade_version : result Z :=
  bindE get_available_upgrades (fun versions =>
  match last_item versions with
  | Some v => int v
  | None => ok 0
  end).

Definition load_upgrade_script (script_path script_name : string)
  : result string :=
  let script := join "" [script_name; SCRIPT_EXT] in
  let script := path_join script_path script in
  open_read fs script.

Definition load_upgrade_components (upgrade_path : string)
  (manifest : list string) : result (list (string * string)) :=
  mapE (fun line =>
          let script_name := rstrip line in
          bindE (load_upgrade_script upgrade_path script_name) (fun sql =>
          ok (script_name, sql)))
       manifest.

Definition scripts_from_manifestfile (version_dir : string)
  : result (list (string * string)) :=
  bindE (open_read fs (path_join version_dir FILE_MANIFEST)) (fun manifest =>
  load_upgrade_components version_dir (readlines manifest)).

Definition scripts_from_upgradedir (version_dir : string)
  : result (list (string * string)) :=
  bindE (listdir fs version_dir) (fun scripts =>
  bindE (mapE script_prefix scripts) (fun keys =>
  let scripts := map snd (sort_by fst bool_lt (combine keys scripts)) in
  let scripts := map (fun x => slice_to x (rfind "." x)) scripts in
  load_upgrade_components version_dir scripts)).

Definition load_upgrade (version : Z) : result (list (string * string)) :=
  let version_dir := path_join (directory self) (str_int version) in
  match scripts_from_manifestfile version_dir with
  | inl (IOError errno _) =>
      if errno =? 2 then scripts_from_upgradedir version_dir
      else raise (Exception "missing manifest file")
  | outcome => outcome
  end.

(** The body of the [for] loop of [perform_upgrade], for the already
    incremented [version]. *)
Definition upgrade_to (version : Z) : M unit :=
  upgrade <- liftE (load_upgrade version) ;;
  print ("= upgrading to version " ++ str_int version ++ " ...") ;;;
  apply_upgrade upgrade ;;;
  create_version_record version ;;;
  connection_commit ;;;
  affected <- cursor_rowcount ;;
  if negb (affected =? 1) then
    raiseM (Exception "could not record the upgrade")
  else
    print ("= upgrade complete: version => " ++ str_int version ++ nl).

(** The [for] loop over [xrange(active_version, upgrade_version)].  It
    also hands back the local variable [version], which the handler of
    [perform_upgrade] prints. *)
Fixpoint upgrade_loop (pending : list Z) (version : option Z) (w : world)
  : (option Z * result unit) * world :=
  match pending with
  | [] => ((version, ok tt), w)
  | i :: rest =>
      let version := i + 1 in
      match upgrade_to version w with
      | (inl e, w') => ((Some version, raise e), w')
      | (inr _, w') => upgrade_loop rest (Some version) w'
      end
  end.

Definition str_version (version : option Z) : string :=
  match version with
  | Some v => str_int v
  | None => "None"
  end.

Definition perform_upgrade : M Z :=
  active_version <- get_active_version ;;
  upgrade_version <- liftE get_latest_upgrade_version ;;
  print ("Database currently at version " ++ str_int active_version ++ ".") ;;;
  active_version <-
    tryM (if active_version =? -1 then
            create_version_table ;;;
            print ("Create version table " ++ get_table self
                     ++ ": version => " ++ str_int 0) ;;;
            retM 0
          else retM active_version)
         (fun e => print (str_exn e) ;;; raiseM e) ;;
  print "" ;;;
  if active_version - upgrade_version =? 0 then
    print "No upgrades to be applied." ;;;
    retM 0
  else
    fun w =>
      match upgrade_loop (xrange active_version upgrade_version) None w with
      | ((_, inr _), w') => (ok 0, w')
      | ((version, inl e), w') =>
          (connection_rollback ;;;
           print (join nl ["error upgrading to version "
                             ++ str_version version ++ nl;
                           str_exn e; ""]) ;;;
           retM 1) w'
      end.

End Methods.

Arguments committed {store} _.
Arguments working {store} _.
Arguments fetched {store} _.
Arguments rowcount {store} _.
Arguments conn {store} _.
Arguments stdout {store} _.

End Upgrader.

Import Upgrader.

(* ===================================================================== *)
(** * Executable collaborators *)
(* ===================================================================== *)

(** A script store given as a tree.  The order of a folder's entries is the
    order in which [os.listdir] reports them. *)
Module TreeFS.

#[local] Set Warnings "-register-all".

Inductive tree : Type :=
| File (content : string)
| Sealed                                   (* present, but not readable *)
| Folder (entries : list (string * tree)).

Fixpoint find_entry (name : string) (entries : list (string * tree))
  : option tree :=
  match entries with
  | [] => None
  | (n, t) :: rest => if String.eqb n name then Some t else find_entry name rest
  end.

Fixpoint resolve (t : tree) (components : list string) : option tree :=
  match components with
  | [] => Some t
  | c :: rest =>
      if is_empty c then resolve t rest
      else match t with
           | Folder entries =>
               match find_entry c entries with
               | Some t' => resolve t' rest
               | None => None
               end
           | _ => None
           end
  end.

Definition lookup (root : tree) (path : string) : option tree :=
  resolve root (split "/" path).

Definition os_error (errno : Z) (what path : string) : string :=
  "[Errno " ++ str_int errno ++ "] " ++ what ++ ": '" ++ path ++ "'".

Definition mount (root : tree) : FileSystem :=
  {| listdir := fun path =>
       match lookup root path with
       | Some (Folder entries) => ok (map fst entries)
       | Some _ => raise (OSError 20 (os_error 20 "Not a directory" path))
       | None => raise (OSError 2 (os_error 2 "No such file or directory" path))
       end;
     open_read := fun path =>
       match lookup root path with
       | Some (File content) => ok content
       | Some Sealed => raise (IOError 13 (os_error 13 "Permission denied" path))
       | Some (Folder _) => raise (IOError 21 (os_error 21 "Is a directory" path))
       | None => raise (IOError 2 (os_error 2 "No such file or directory" path))
       end |}.

End TreeFS.

(** A database with one changelog table and otherwise opaque user data.
    The user data is the journal of the script texts executed so far, so a
    rollback that restores it has undone those scripts. *)
Module MiniDB.

Record contents : Type := {
  changelog : option (list Z);      (* [None]: the table does not exist *)
  journal : list string
}.

Fixpoint max_id (ids : list Z) : option Z :=
  match ids with
  | [] => None
  | i :: rest =>
      match max_id rest with
      | None => Some i
      | Some m => Some (Z.max i m)
      end
  end.

Fixpoint strip_prefix (p s : string) : option string :=
  match p, s with
  | EmptyString, _ => Some s
  | String a p', String b s' =>
      if chr_eqb a b then strip_prefix p' s' else None
  | _, EmptyString => None
  end.

Definition literal (s : string) : option Z :=
  match s with
  | String "-" body => option_map Z.opp (digits body)
  | body => digits body
  end.

(** The version in [INSERT INTO tbl (id) VALUES (version)]. *)
Definition parse_insert (tbl sql : string) : option Z :=
  match strip_prefix ("INSERT INTO " ++ tbl ++ " (id) VALUES (") sql with
  | Some body =>
      match last_char body with
      | Some ")"%char => literal (slice_to body (-1))
      | _ => None
      end
  | None => None
  end.

Section Engine.

(** The name of the changelog table, the script texts the database
    refuses, and whether the driver reports row counts ([-1] is what a
    driver reports when it cannot tell). *)
Variable tbl : string.
Variable rejects : string -> bool.
Variable counts_rows : bool.

Definition no_rows (n : Z) : cursor_result :=
  {| res_rows := []; res_rowcount := n |}.

(** The [CREATE TABLE] statement of either dialect of [TABLE_STRUCTURE]. *)
Definition creates_table (sql : string) : bool :=
  (String.eqb sql (format0 STRUCTURE_SQLITE3 tbl)
   || String.eqb sql (format0 STRUCTURE_MYSQL tbl))%bool.

Definition no_such_table {A} : result A :=
  raise (DatabaseError ("no such table: " ++ tbl)).

Definition engine (sql : string) (db : contents)
  : result (contents * cursor_result) :=
  if String.eqb sql (select_max_query tbl) then
    match changelog db with
    | None => no_such_table
    | Some ids => ok (db, {| res_rows := [[max_id ids]]; res_rowcount := -1 |})
    end
  else if creates_table sql then
    match changelog db with
    | None => ok ({| changelog := Some []; journal := journal db |}, no_rows (-1))
    | Some _ => raise (DatabaseError ("table " ++ tbl ++ " already exists"))
    end
  else
    match parse_insert tbl sql with
    | Some version =>
        match changelog db with
        | None => no_such_table
        | Some ids =>
            ok ({| changelog := Some (ids ++ [version])%list; journal := journal db |},
                no_rows (if counts_rows then 1 else -1))
        end
    | None =>
        if rejects sql then raise (DatabaseError ("cannot execute: " ++ sql))
        else ok ({| changelog := changelog db; journal := (journal db ++ [sql])%list |},
                 no_rows (-1))
    end.

End Engine.

(** A connection on which nothing is pending. *)
Definition connect (db : contents) : connection contents :=
  {| committed := db; working := db; fetched := []; rowcount := -1 |}.

Definition fresh : contents := {| changelog := None; journal := [] |}.

Definition at_version (ids : list Z) : contents :=
  {| changelog := Some ids; journal := [] |}.

Definition start (db : contents) : world contents :=
  {| conn := connect db; stdout := [] |}.

End MiniDB.

(* ===================================================================== *)
(** * Concrete inputs *)
(* ===================================================================== *)

Module Inputs.

Import TreeFS MiniDB.

Definition accepts_all (sql : string) : bool := false.

(** The upgrader the tests build: [for_engine('sqlite3', connection, 'up')]. *)
Definition sqlite_upgrader : SimpleUpgrader :=
  {| directory := "up"; table := (TABLE_NAME, STRUCTURE_SQLITE3) |}.

(** The same for the other engine. *)
Definition mysql_upgrader : SimpleUpgrader :=
  {| directory := "up"; table := (TABLE_NAME, STRUCTURE_MYSQL) |}.

(** A version directory holding one prefixed script. *)
Definition one_step (n : Z) : tree :=
  Folder [("1-step.sql", File ("UPDATE t SET v = " ++ str_int n))].

(** [up/1 .. up/N], listed in increasing order. *)
Definition versions_up_to (N : Z) : tree :=
  Folder [("up", Folder (map (fun n => (str_int n, one_step n)) (xrange 1 (N + 1))))].

(** No version directory at all. *)
Definition upgrades_none : tree := Folder [("up", Folder [])].

(** [10-create.sql] and [2-seed.sql], no manifest. *)
Definition numbered : tree :=
  Folder [("up", Folder [("1", Folder [("10-create.sql", File "CREATE TABLE t (v int)");
                                       ("2-seed.sql", File "INSERT INTO s VALUES (1)")])])].

(** A script whose prefix is the integer zero. *)
Definition zero_prefix : tree :=
  Folder [("up", Folder [("1", Folder [("0-seed.sql", File "INSERT INTO s VALUES (1)")])])].

(** The package of the test suite: a file whose leading token is a word. *)
Definition missing_prefix : tree :=
  Folder [("up", Folder [("1", Folder [("missing-prefix.sql", File "SELECT 1")])])].

(** A manifest listing [b], [a], [c]; the line of [b] ends in a blank. *)
Definition with_manifest : tree :=
  Folder [("up", Folder [("1", Folder [("a.sql", File "SELECT 'a'");
                                       ("b.sql", File "SELECT 'b'");
                                       ("c.sql", File "SELECT 'c'");
                                       ("_manifest", File ("b " ++ nl ++ "a" ++ nl ++ "c" ++ nl))])])].

(** A manifest that lists a script which is not there. *)
Definition manifest_missing_script : tree :=
  Folder [("up", Folder [("1", Folder [("_manifest", File ("a" ++ nl))])])].

(** A manifest of three scripts where the last is missing, next to a
    well-formed numbered script. *)
Definition manifest_partial : tree :=
  Folder [("up", Folder [("1", Folder [("1-other.sql", File "SELECT 1");
                                       ("b.sql", File "SELECT 'b'");
                                       ("a.sql", File "SELECT 'a'");
                                       ("_manifest", File ("b" ++ nl ++ "a" ++ nl ++ "c" ++ nl))])])].

(** A manifest that is present but may not be opened. *)
Definition manifest_sealed : tree :=
  Folder [("up", Folder [("1", Folder [("1-a.sql", File "SELECT 1");
                                       ("_manifest", Sealed)])])].

(** Three versions; the second script of the third is refused. *)
Definition three_versions : tree :=
  Folder [("up", Folder [("1", one_step 1); ("2", one_step 2);
                         ("3", Folder [("1-first.sql", File "CREATE TABLE extra (v int)");
                                       ("2-second.sql", File "BOOM")])])].

Definition rejects_boom (sql : string) : bool := String.eqb sql "BOOM".

(** One version with one script. *)
Definition upgrades_basic : tree :=
  Folder [("up", Folder [("1", Folder [("1-init.sql", File "CREATE TABLE foo (id int)")])])].

(** Version directories named with leading zeros, listed out of order. *)
Definition padded_versions : tree :=
  Folder [("up", Folder [("02", one_step 2); ("10", one_step 10); ("01", one_step 1)])].

(** Files whose prefixes are zero and positive, mixed. *)
Definition mixed_prefixes : tree :=
  Folder [("up", Folder [("1", Folder [("3-c.sql", File "SELECT 'c'");
                                       ("0-a.sql", File "SELECT 'a'");
                                       ("1-b.sql", File "SELECT 'b'");
                                       ("0-d.sql", File "SELECT 'd'")])])].

(** The handle of the tests: the one-table database under the default table
    name. *)
Definition handle (rejects : string -> bool) (counts_rows : bool)
  : string -> contents -> result (contents * cursor_result) :=
  engine TABLE_NAME rejects counts_rows.

(** Running [perform_upgrade] from a connection with nothing pending. *)
Definition run (root : tree) (rejects : string -> bool) (counts_rows : bool)
  (db : contents) : result Z * world contents :=
  perform_upgrade contents (handle rejects counts_rows) (mount root)
    sqlite_upgrader (start db).

(** [get_active_version()] on the same connection. *)
Definition active_version_on (rejects : string -> bool) (counts_rows : bool)
  (w : world contents) : result Z :=
  fst (get_active_version contents (handle rejects counts_rows) sqlite_upgrader w).

Definition load (root : tree) (version : Z) : result (list (string * string)) :=
  load_upgrade (mount root) sqlite_upgrader version.

End Inputs.

(* ===================================================================== *)
(** * Checks of the Python primitives *)
(* ===================================================================== *)

Example split_examples :
  split "-" "10-create.sql" = ["10"; "create.sql"]
  /\ split "-" "_manifest" = ["_manifest"]
  /\ split "-" "-5-x.sql" = [""; "5"; "x.sql"]
  /\ split "-" "" = [""].
Proof. repeat split; reflexivity. Qed.

Example rstrip_examples :
  rstrip ("b " ++ nl) = "b" /\ rstrip " a b" = " a b" /\ rstrip nl = "".
Proof. repeat split; reflexivity. Qed.

Example strip_extension_examples :
  slice_to "2-seed.sql" (rfind "." "2-seed.sql") = "2-seed"
  /\ slice_to "a.b.sql" (rfind "." "a.b.sql") = "a.b"
  /\ slice_to "README" (rfind "." "README") = "READM".
Proof. repeat split; reflexivity. Qed.

Example str_int_examples :
  str_int 10 = "10" /\ str_int 0 = "0" /\ str_int (-1) = "-1".
Proof. repeat split; reflexivity. Qed.

Example parse_int_examples :
  parse_int " 12 " = Some 12 /\ parse_int "+3" = Some 3
  /\ parse_int "-3" = Some (-3) /\ parse_int "007" = Some 7
  /\ parse_int "0" = Some 0 /\ parse_int "" = None
  /\ parse_int "missing" = None /\ parse_int "1 2" = None.
Proof. repeat split; reflexivity. Qed.

Example sort_strings_example :
  sort_strings ["3"; "10"; "2"; "1"; "9"] = ["1"; "10"; "2"; "3"; "9"].
Proof. reflexivity. Qed.

Example sort_is_stable :
  sort_by fst bool_lt [(true, "c"); (false, "b"); (true, "a"); (false, "d")]
  = [(false, "b"); (false, "d"); (true, "c"); (true, "a")].
Proof. reflexivity. Qed.

Example readlines_example :
  readlines ("b" ++ nl ++ "a" ++ nl ++ "c") = ["b" ++ nl; "a" ++ nl; "c"].
Proof. reflexivity. Qed.

Example path_join_examples :
  path_join "up" "1" = "up/1" /\ path_join "up/" "1" = "up/1"
  /\ path_join "" "1" = "1" /\ path_join "up" "/abs" = "/abs".
Proof. repeat split; reflexivity. Qed.

Example xrange_examples : xrange 2 5 = [2; 3; 4] /\ xrange 5 2 = [].
Proof. repeat split; reflexivity. Qed.

Example create_query_sqlite3 :
  create_query Inputs.sqlite_upgrader
  = nl ++ "CREATE TABLE schema_changelog (" ++ nl ++ "    id int," ++ nl
       ++ "    applied text default datetime" ++ nl ++ ")".
Proof. reflexivity. Qed.

Example for_engine_examples :
  for_engine "sqlite3" "up" TABLE_NAME = ok Inputs.sqlite_upgrader
  /\ for_engine "oracle" "up" TABLE_NAME
     = raise (Exception "unknown database requested oracle").
Proof. repeat split; reflexivity. Qed.

Example insert_query_example :
  insert_query TABLE_NAME 12 = "INSERT INTO schema_changelog (id) VALUES (12)".
Proof. reflexivity. Qed.

(* ===================================================================== *)
(** * Facts about the primitives *)
(* ===================================================================== *)

(** ** Strings *)

Lemma append_assoc (a b c : string) : (a ++ b) ++ c = a ++ (b ++ c).
Proof. induction a as [|x a IH]; cbn; [reflexivity|]. now rewrite IH. Qed.

Lemma length_append (a b : string) :
  String.length (a ++ b) = (String.length a + String.length b)%nat.
Proof. induction a as [|x a IH]; cbn; [reflexivity|]. now rewrite IH. Qed.

Lemma substring_of_append (a b : string) :
  String.substring 0 (String.length a) (a ++ b) = a.
Proof. induction a as [|x a IH]; cbn; [now destruct b|]. now rewrite IH. Qed.

Lemma last_char_append (a : string) (c : ascii) :
  last_char (a ++ String c EmptyString) = Some c.
Proof.
  induction a as [|x a IH]; [reflexivity|].
  cbn [String.append last_char]. rewrite IH.
  destruct (a ++ String c EmptyString) eqn:E; [|reflexivity].
  destruct a; discriminate.
Qed.

Lemma slice_drops_last (a : string) (c : ascii) :
  slice_to (a ++ String c EmptyString) (-1) = a.
Proof.
  unfold slice_to, len. rewrite length_append. cbn [String.length Z.ltb Z.compare].
  replace (Z.to_nat (Z.max 0 (Z.of_nat (String.length a + 1) + -1)))
    with (String.length a) by lia.
  apply substring_of_append.
Qed.

Lemma split_without_separator (sep : ascii) (s : string) :
  contains sep s = false -> split sep s = [s].
Proof.
  induction s as [|c rest IH]; [reflexivity|].
  cbn [split contains]. intros H.
  apply orb_false_iff in H. destruct H as [Hc Hrest].
  rewrite Hc, (IH Hrest). reflexivity.
Qed.

Lemma split_at_first_separator (sep : ascii) (token rest : string) :
  contains sep token = false ->
  split sep (token ++ String sep rest) = token :: split sep rest.
Proof.
  induction token as [|c token IH]; intros H.
  - cbn. unfold chr_eqb. rewrite Ascii.eqb_refl. reflexivity.
  - cbn [contains] in H. apply orb_false_iff in H. destruct H as [Hc Htoken].
    cbn [String.append split]. rewrite Hc, (IH Htoken). reflexivity.
Qed.

Lemma split_has_head (sep : ascii) (s : string) : split sep s <> [].
Proof.
  destruct s as [|c rest]; cbn [split]; [discriminate|].
  destruct (chr_eqb c sep); [discriminate|].
  destruct (split sep rest); discriminate.
Qed.

Lemma split_append (sep : ascii) (a b : string) :
  split sep (a ++ String sep b) = (split sep a ++ split sep b)%list.
Proof.
  induction a as [|c a IH].
  - cbn. unfold chr_eqb. rewrite Ascii.eqb_refl. reflexivity.
  - cbn [String.append split]. rewrite IH.
    destruct (chr_eqb c sep); [reflexivity|].
    destruct (split sep a) as [|h t] eqn:Hs; [exfalso; exact (split_has_head _ _ Hs)|].
    reflexivity.
Qed.

Lemma last_char_inv (a : string) (c : ascii) :
  last_char a = Some c -> exists a', a = a' ++ String c EmptyString.
Proof.
  induction a as [|x a IH]; [discriminate|].
  cbn [last_char]. destruct a as [|y a].
  - intros H. injection H as <-. exists EmptyString. reflexivity.
  - intros H. destruct (IH H) as (a' & ->). exists (String x a'). reflexivity.
Qed.

Lemma last_char_none (a : string) : last_char a = None -> a = EmptyString.
Proof.
  induction a as [|x a IH]; [reflexivity|].
  cbn [last_char]. destruct a as [|y a]; [discriminate|].
  intros H. specialize (IH H). discriminate.
Qed.

(** ** [int] and [str] *)

Lemma digits_from_positive (d : Decimal.uint) :
  forall acc : positive,
    digits_from (Z.pos acc) (NilEmpty.string_of_uint d)
    = Some (Z.pos (Pos.of_uint_acc d acc)).
Proof.
  induction d as [|d IH|d IH|d IH|d IH|d IH|d IH|d IH|d IH|d IH|d IH];
    intros acc; cbn [NilEmpty.string_of_uint digits_from Pos.of_uint_acc];
    [reflexivity|..];
    match goal with
    | |- match digit_of ?c with _ => _ end = _ =>
        let v := eval vm_compute in (digit_of c) in change (digit_of c) with v
    end;
    cbv beta iota;
    match goal with
    | |- digits_from ?a _ = Some (Z.pos (Pos.of_uint_acc _ ?b)) =>
        replace a with (Z.pos b) by lia
    end;
    apply IH.
Qed.

Lemma digits_from_zero (d : Decimal.uint) :
  digits_from 0 (NilEmpty.string_of_uint d) = Some (Z.of_N (Pos.of_uint d)).
Proof.
  induction d as [|d IH|d IH|d IH|d IH|d IH|d IH|d IH|d IH|d IH|d IH];
    cbn [NilEmpty.string_of_uint digits_from Pos.of_uint];
    [reflexivity|exact IH|..];
    match goal with
    | |- match digit_of ?c with _ => _ end = _ =>
        let v := eval vm_compute in (digit_of c) in change (digit_of c) with v
    end;
    cbv beta iota;
    match goal with
    | |- digits_from ?a _ = Some (Z.of_N (N.pos (Pos.of_uint_acc _ ?b))) =>
        change a with (Z.pos b)
    end;
    apply digits_from_positive.
Qed.

Lemma rstrip_digits (d : Decimal.uint) :
  rstrip (NilEmpty.string_of_uint d) = NilEmpty.string_of_uint d.
Proof.
  induction d as [|d IH|d IH|d IH|d IH|d IH|d IH|d IH|d IH|d IH|d IH];
    cbn [NilEmpty.string_of_uint rstrip]; [reflexivity|..];
    rewrite IH;
    match goal with
    | |- (if (?e && isspace ?c)%bool then _ else _) = _ =>
        change (isspace c) with false; rewrite andb_false_r; reflexivity
    end.
Qed.

Lemma digits_of_positive (p : positive) :
  digits (NilEmpty.string_of_uint (Pos.to_uint p)) = Some (Z.pos p).
Proof.
  pose proof (Unsigned.to_uint_nonnil p) as Hnil.
  pose proof (digits_from_zero (Pos.to_uint p)) as H.
  rewrite Unsigned.of_to in H.
  destruct (Pos.to_uint p); [contradiction|..]; exact H.
Qed.

Lemma str_int_positive (p : positive) :
  str_int (Z.pos p) = NilEmpty.string_of_uint (Pos.to_uint p).
Proof.
  unfold str_int. cbn [Z.to_int NilZero.string_of_int NilZero.string_of_uint].
  pose proof (Unsigned.to_uint_nonnil p).
  destruct (Pos.to_uint p); [contradiction|..]; reflexivity.
Qed.

Lemma str_int_negative (p : positive) :
  str_int (Z.neg p) = String "-" (NilEmpty.string_of_uint (Pos.to_uint p)).
Proof.
  unfold str_int. cbn [Z.to_int NilZero.string_of_int NilZero.string_of_uint].
  pose proof (Unsigned.to_uint_nonnil p).
  destruct (Pos.to_uint p); [contradiction|..]; reflexivity.
Qed.

(** [int(str(n)) == n]. *)
Lemma parse_int_str_int (n : Z) : parse_int (str_int n) = Some n.
Proof.
  destruct n as [|p|p].
  - reflexivity.
  - rewrite str_int_positive. unfold parse_int, strip.
    pose proof (digits_of_positive p) as H.
    pose proof (rstrip_digits (Pos.to_uint p)) as Hr.
    destruct (Pos.to_uint p); cbn [NilEmpty.string_of_uint lstrip] in *;
      try discriminate;
      match goal with
      | |- context [isspace ?c] => change (isspace c) with false
      end; cbv iota; rewrite Hr; exact H.
  - rewrite str_int_negative. unfold parse_int, strip.
    cbn [lstrip]. change (isspace "-") with false. cbv iota.
    cbn [rstrip]. rewrite rstrip_digits.
    change (isspace "-") with false. rewrite andb_false_r.
    rewrite digits_of_positive. reflexivity.
Qed.

(** ** Ranges, sorting, mapping *)

Lemma xrange_step (a b : Z) : a < b -> xrange a b = a :: xrange (a + 1) b.
Proof.
  intros H. unfold xrange.
  replace (Z.to_nat (b - a)) with (S (Z.to_nat (b - (a + 1)))) by lia.
  cbn [seq map]. rewrite Z.add_0_r. f_equal.
  rewrite <- seq_shift, map_map. apply map_ext. intros k. lia.
Qed.

Lemma xrange_empty (a b : Z) : b <= a -> xrange a b = [].
Proof.
  intros H. unfold xrange. replace (Z.to_nat (b - a)) with 0%nat by lia. reflexivity.
Qed.

Lemma in_xrange (a b k : Z) : In k (xrange a b) <-> a <= k < b.
Proof.
  unfold xrange. rewrite in_map_iff. split.
  - intros (i & <- & Hi). apply in_seq in Hi. lia.
  - intros H. exists (Z.to_nat (k - a)). split; [lia|]. apply in_seq. lia.
Qed.

(** Sorting on a key that is the same for every element changes nothing. *)
Lemma sort_by_equal_keys {A : Type} (l : list (bool * A)) (b : bool) :
  Forall (fun p => fst p = b) l -> sort_by fst bool_lt l = l.
Proof.
  induction 1 as [|[k x] rest Hk Hrest IH]; [reflexivity|].
  cbn [sort_by]. rewrite IH. cbn in Hk. subst k.
  destruct Hrest as [|[k' y] rest' Hk' _]; [reflexivity|].
  cbn [insert fst]. cbn in Hk'. subst k'.
  unfold bool_lt. destruct b; reflexivity.
Qed.

Lemma mapE_constant {A B : Type} (f : A -> result B) (b : B) (xs : list A) :
  Forall (fun x => f x = ok b) xs -> mapE f xs = ok (map (fun _ => b) xs).
Proof.
  induction 1 as [|x rest Hx _ IH]; [reflexivity|].
  cbn [mapE map]. rewrite Hx, IH. reflexivity.
Qed.

Lemma combine_constant_keys {A : Type} (b : bool) (xs : list A) :
  Forall (fun p => fst p = b) (combine (map (fun _ => b) xs) xs)
  /\ map snd (combine (map (fun _ => b) xs) xs) = xs.
Proof.
  induction xs as [|x rest [IHkeys IHnames]]; cbn [map combine snd].
  - split; [constructor|reflexivity].
  - split; [constructor; [reflexivity|exact IHkeys]|]. now rewrite IHnames.
Qed.

Lemma mapE_raises {A B : Type} (f : A -> result B) (E : exn) (x : A) (xs : list A) :
  (forall y e, f y = raise e -> e = E) ->
  In x xs -> f x = raise E -> mapE f xs = raise E.
Proof.
  intros Honly Hin Hx. induction xs as [|a rest IH]; [contradiction|].
  cbn [mapE]. destruct (f a) as [e|b] eqn:Ha.
  - rewrite (Honly a e Ha). reflexivity.
  - destruct Hin as [->|Hin]; [rewrite Hx in Ha; discriminate|].
    cbn [bindE]. rewrite (IH Hin). reflexivity.
Qed.

(** ** The order of [list.sort] on strings *)

Lemma ascii_compare_refl (c : ascii) : Ascii.compare c c = Eq.
Proof. unfold Ascii.compare. apply N.compare_refl. Qed.

Lemma string_compare_refl (s : string) : String.compare s s = Eq.
Proof.
  induction s as [|c s IH]; [reflexivity|].
  cbn [String.compare]. rewrite ascii_compare_refl. exact IH.
Qed.

Lemma string_leb_refl (s : string) : String.leb s s = true.
Proof. unfold String.leb. rewrite string_compare_refl. reflexivity. Qed.

Lemma string_leb_trans (a : string) :
  forall b c, String.leb a b = true -> String.leb b c = true -> String.leb a c = true.
Proof.
  unfold String.leb.
  induction a as [|x a IH]; intros [|y b] [|z c]; cbn [String.compare];
    try reflexivity; try discriminate.
  unfold Ascii.compare.
  destruct (N.compare_spec (N_of_ascii x) (N_of_ascii y)) as [Exy|Lxy|Gxy];
    destruct (N.compare_spec (N_of_ascii y) (N_of_ascii z)) as [Eyz|Lyz|Gyz];
    try discriminate; intros Hab Hbc.
  - rewrite Exy, Eyz, N.compare_refl. exact (IH b c Hab Hbc).
  - rewrite Exy. apply N.compare_lt_iff in Lyz. rewrite Lyz. reflexivity.
  - rewrite <- Eyz. apply N.compare_lt_iff in Lxy. rewrite Lxy. reflexivity.
  - assert (H : (N_of_ascii x < N_of_ascii z)%N) by lia.
    apply N.compare_lt_iff in H. rewrite H. reflexivity.
Qed.

Lemma string_ltb_false (a b : string) :
  String.ltb a b = false -> String.leb b a = true.
Proof.
  unfold String.ltb, String.leb. rewrite (String.compare_antisym a b).
  destruct (String.compare b a); cbn; try reflexivity; discriminate.
Qed.

Lemma string_ltb_leb (a b : string) :
  String.ltb a b = true -> String.leb a b = true.
Proof.
  unfold String.ltb, String.leb. destruct (String.compare a b); try discriminate; reflexivity.
Qed.

(** ** [sort_by] is a stable sort *)

Section SortFacts.

Context {A K : Type}.
Variable key : A -> K.
Variable lt : K -> K -> bool.

Lemma insert_permutation (x : A) (l : list A) :
  Permutation (insert key lt x l) (x :: l).
Proof.
  induction l as [|y l IH]; cbn [insert]; [reflexivity|].
  destruct (lt (key y) (key x)); [|reflexivity].
  rewrite IH. apply perm_swap.
Qed.

Lemma sort_by_permutation (l : list A) : Permutation (sort_by key lt l) l.
Proof.
  induction l as [|x l IH]; cbn [sort_by]; [reflexivity|].
  rewrite insert_permutation. now constructor.
Qed.

End SortFacts.

Lemma insert_sorted (x : string) (l : list string) :
  StronglySorted (fun a b => String.leb a b = true) l ->
  StronglySorted (fun a b => String.leb a b = true) (insert (fun s => s) String.ltb x l).
Proof.
  induction 1 as [|y l Hl IH Hy]; cbn [insert].
  - constructor; constructor.
  - destruct (String.ltb y x) eqn:Hlt.
    + constructor; [exact IH|].
      apply Forall_forall. intros z Hz.
      apply (Permutation_in _ (insert_permutation (fun s => s) String.ltb x l)) in Hz.
      destruct Hz as [<-|Hz]; [exact (string_ltb_leb _ _ Hlt)|].
      rewrite Forall_forall in Hy. exact (Hy z Hz).
    + assert (Hxy : String.leb x y = true) by exact (string_ltb_false _ _ Hlt).
      constructor; [constructor; assumption|].
      constructor; [exact Hxy|].
      apply Forall_forall. intros z Hz. rewrite Forall_forall in Hy.
      exact (string_leb_trans x y z Hxy (Hy z Hz)).
Qed.

Lemma sort_strings_sorted (l : list string) :
  StronglySorted (fun a b => String.leb a b = true) (sort_strings l).
Proof.
  unfold sort_strings. induction l as [|x l IH]; cbn [sort_by]; [constructor|].
  exact (insert_sorted x _ IH).
Qed.

Lemma sorted_last_is_greatest (l : list string) (m : string) :
  StronglySorted (fun a b => String.leb a b = true) l ->
  last_item l = Some m ->
  In m l /\ forall s, In s l -> String.leb s m = true.
Proof.
  unfold last_item.
  induction 1 as [|y l Hl IH Hy]; [discriminate|].
  destruct l as [|z l'].
  - cbn. intros H. injection H as <-. split; [left; reflexivity|].
    intros s [<-|[]]. apply string_leb_refl.
  - intros H. change (last (map Some (z :: l')) None = Some m) in H.
    destruct (IH H) as [Hin Hmax]. split; [right; exact Hin|].
    intros s [<-|Hs]; [|exact (Hmax s Hs)].
    rewrite Forall_forall in Hy. exact (Hy m Hin).
Qed.

Lemma last_item_none {A : Type} (l : list A) : last_item l = None -> l = [].
Proof.
  unfold last_item. induction l as [|x l IH]; [reflexivity|].
  destruct l as [|y l']; [discriminate|].
  intros H. change (last (map Some (y :: l')) None = None) in H.
  specialize (IH H). discriminate.
Qed.

(** ** Sorting on a boolean key *)

Lemma insert_after_false {A : Type} (x : bool * A) (front back : list (bool * A)) :
  fst x = true ->
  Forall (fun p => fst p = false) front ->
  insert fst bool_lt x (front ++ back) = (front ++ insert fst bool_lt x back)%list.
Proof.
  intros Hx. induction 1 as [|y front Hy _ IH]; [reflexivity|].
  cbn [app insert]. rewrite Hy, Hx. cbn [bool_lt negb andb]. now rewrite IH.
Qed.

Lemma insert_before_true {A : Type} (x : bool * A) (back : list (bool * A)) :
  Forall (fun p => fst p = true) back ->
  insert fst bool_lt x back = x :: back.
Proof.
  intros H. destruct H as [|y back Hy _]; [reflexivity|].
  cbn [insert]. rewrite Hy. reflexivity.
Qed.

Lemma insert_false_first {A : Type} (x : bool * A) (l : list (bool * A)) :
  fst x = false -> insert fst bool_lt x l = x :: l.
Proof.
  intros Hx. destruct l as [|y l]; [reflexivity|].
  cbn [insert]. rewrite Hx. unfold bool_lt. rewrite andb_false_r. reflexivity.
Qed.

(** A stable sort on the keys [False < True] puts the elements with key
    [False] first and the ones with key [True] after them, each group in
    its original order. *)
Lemma sort_by_bool_key {A : Type} (l : list (bool * A)) :
  sort_by fst bool_lt l
  = (filter (fun p => negb (fst p)) l ++ filter (fun p => fst p) l)%list.
Proof.
  induction l as [|[k x] l IH]; [reflexivity|].
  cbn [sort_by filter fst]. rewrite IH. destruct k; cbn [negb].
  - rewrite insert_after_false; [|reflexivity|].
    + rewrite insert_before_true; [reflexivity|].
      apply Forall_forall. intros p Hp. apply filter_In in Hp. tauto.
    + apply Forall_forall. intros p Hp. apply filter_In in Hp.
      destruct Hp as [_ Hp]. now apply negb_true_iff in Hp.
  - now rewrite insert_false_first.
Qed.

Lemma mapE_total {A B : Type} (f : A -> result B) (default : B) (xs : list A) :
  Forall (fun x => exists b, f x = ok b) xs ->
  mapE f xs = ok (map (fun x => match f x with inr b => b | inl _ => default end) xs).
Proof.
  induction 1 as [|x rest (b & Hx) _ IH]; [reflexivity|].
  cbn [mapE map]. rewrite Hx, IH. reflexivity.
Qed.

Lemma filter_combine_keys {A : Type} (g : A -> bool) (h : bool -> bool)
  (xs : list A) :
  map snd (filter (fun p => h (fst p)) (combine (map g xs) xs))
  = filter (fun x => h (g x)) xs.
Proof.
  induction xs as [|x rest IH]; [reflexivity|].
  cbn [map combine filter fst]. destruct (h (g x)); cbn [map snd]; now rewrite IH.
Qed.

Lemma rfind_from_app (c : ascii) (a b : string) :
  forall i best,
    rfind_from c (a ++ b) i best = rfind_from c b (i + len a) (rfind_from c a i best).
Proof.
  induction a as [|x a IH]; intros i best.
  - cbn. now rewrite Z.add_0_r.
  - cbn [String.append rfind_from]. rewrite IH. unfold len. cbn [String.length].
    f_equal. lia.
Qed.

(** Taking the extension off [<base>.sql] gives [<base>]. *)
Lemma strip_sql_extension (base : string) :
  slice_to (base ++ ".sql") (rfind "." (base ++ ".sql")) = base.
Proof.
  unfold rfind. rewrite rfind_from_app. cbn [rfind_from chr_eqb Ascii.eqb Bool.eqb].
  cbn. unfold slice_to.
  replace (len base <? 0) with false by (symmetry; apply Z.ltb_ge; unfold len; lia).
  unfold len. rewrite Nat2Z.id. apply substring_of_append.
Qed.

(** ** Numerals of equal width *)

Lemma digit_of_range (c : ascii) (d : Z) :
  digit_of c = Some d -> 0 <= d <= 9 /\ Z.of_N (N_of_ascii c) = d + 48.
Proof.
  unfold digit_of, nat_of_ascii.
  destruct (Nat.leb 48 (N.to_nat (N_of_ascii c))) eqn:Hlo; [|discriminate].
  destruct (Nat.leb (N.to_nat (N_of_ascii c)) 57) eqn:Hhi; [|discriminate].
  cbn [andb]. intros H. injection H as <-.
  apply Nat.leb_le in Hlo, Hhi. lia.
Qed.

Lemma digit_is_not_space (c : ascii) (d : Z) :
  digit_of c = Some d -> isspace c = false.
Proof.
  intros H. destruct (digit_of_range c d H) as [Hd Hc].
  unfold isspace, nat_of_ascii.
  destruct (Nat.eqb_spec (N.to_nat (N_of_ascii c)) 32) as [E|_]; [lia|].
  destruct (Nat.leb_spec 9 (N.to_nat (N_of_ascii c))) as [_|L]; [|lia].
  destruct (Nat.leb_spec (N.to_nat (N_of_ascii c)) 13) as [L|_]; [lia|].
  reflexivity.
Qed.

Lemma digits_from_compare (s1 : string) :
  forall (s2 : string) (a1 a2 v1 v2 : Z),
    String.length s1 = String.length s2 ->
    digits_from a1 s1 = Some v1 ->
    digits_from a2 s2 = Some v2 ->
    (a1 < a2 -> v1 < v2)
    /\ (a2 < a1 -> v2 < v1)
    /\ (a1 = a2 -> String.compare s1 s2 = (v1 ?= v2)).
Proof.
  induction s1 as [|c1 s1 IH]; intros [|c2 s2] a1 a2 v1 v2 Hlen H1 H2;
    try discriminate.
  - cbn in H1, H2. injection H1 as <-. injection H2 as <-.
    repeat split; try lia. intros ->. rewrite Z.compare_refl. reflexivity.
  - cbn [digits_from] in H1, H2.
    destruct (digit_of c1) as [d1|] eqn:Hd1; [|discriminate].
    destruct (digit_of c2) as [d2|] eqn:Hd2; [|discriminate].
    destruct (digit_of_range c1 d1 Hd1) as [R1 N1].
    destruct (digit_of_range c2 d2 Hd2) as [R2 N2].
    cbn [String.length] in Hlen. injection Hlen as Hlen.
    destruct (IH s2 _ _ v1 v2 Hlen H1 H2) as (Hlt & Hgt & Heq).
    split; [intros; apply Hlt; lia|].
    split; [intros; apply Hgt; lia|].
    intros ->. cbn [String.compare]. unfold Ascii.compare.
    destruct (N.compare_spec (N_of_ascii c1) (N_of_ascii c2)) as [E|L|G].
    + apply Heq. lia.
    + symmetry. apply Z.compare_lt_iff. apply Hlt. lia.
    + symmetry. apply Z.compare_gt_iff. apply Hgt. lia.
Qed.

Lemma digits_from_rstrip (s : string) :
  forall a v, digits_from a s = Some v -> rstrip s = s.
Proof.
  induction s as [|c s IH]; intros a v H; [reflexivity|].
  cbn [digits_from] in H. destruct (digit_of c) as [d|] eqn:Hd; [|discriminate].
  cbn [rstrip]. rewrite (IH _ _ H), (digit_is_not_space c d Hd), andb_false_r.
  reflexivity.
Qed.

(** [int] of a string of digits is its decimal value. *)
Lemma parse_int_of_digits (s : string) (k : Z) :
  digits s = Some k -> parse_int s = Some k.
Proof.
  intros H. unfold parse_int, strip.
  destruct s as [|c s]; [discriminate|].
  cbn [digits] in H.
  assert (Hr : rstrip (String c s) = String c s) by exact (digits_from_rstrip _ _ _ H).
  assert (Hd : exists d, digit_of c = Some d).
  { cbn [digits_from] in H. destruct (digit_of c) as [d|]; [eauto|discriminate]. }
  destruct Hd as (d & Hd).
  cbn [lstrip]. rewrite (digit_is_not_space c d Hd), Hr.
  destruct (digit_of_range c d Hd) as [Rd Nd].
  destruct c as [[|] [|] [|] [|] [|] [|] [|] [|]]; cbn in Nd; try lia; exact H.
Qed.

(* ===================================================================== *)
(** * The ordering key *)
(* ===================================================================== *)

(** X1.  A file name without a hyphen has no ordering key:
    [script_prefix] raises "invalid prefix". *)
Lemma script_prefix_without_hyphen (filename : string) :
  contains "-" filename = false ->
  script_prefix filename = raise (Exception "invalid prefix").
Proof.
  intros H. unfold script_prefix.
  rewrite (split_without_separator "-" filename H). reflexivity.
Qed.

(** X2.  What [script_prefix] does with [<token>-<rest>]: a token that is not a
    number is refused, and a token that is a number is accepted whatever
    its value; the value only decides the boolean that is returned. *)
Lemma script_prefix_of_token (token rest : string) :
  contains "-" token = false ->
  script_prefix (token ++ "-" ++ rest)
  = match parse_int token with
    | Some n => ok (0 <? n)
    | None => raise (Exception "invalid prefix")
    end.
Proof.
  intros H. unfold script_prefix.
  change (token ++ "-" ++ rest) with (token ++ String "-" rest).
  rewrite (split_at_first_separator "-" token rest H).
  destruct (split "-" rest) as [|h t] eqn:Hs; [exfalso; exact (split_has_head _ _ Hs)|].
  cbn [List.length]. unfold int.
  replace (1 <? Z.of_nat (S (S (List.length t)))) with true
    by (symmetry; apply Z.ltb_lt; lia).
  destruct (parse_int token); reflexivity.
Qed.

(** Whatever [script_prefix] raises is "invalid prefix". *)
Lemma script_prefix_raises (filename : string) (e : exn) :
  script_prefix filename = raise e -> e = Exception "invalid prefix".
Proof.
  unfold script_prefix, int.
  destruct (1 <? Z.of_nat (List.length (split "-" filename)));
    [|intros H; injection H as <-; reflexivity].
  destruct (split "-" filename) as [|prefix rest];
    [intros H; injection H as <-; reflexivity|].
  destruct (parse_int prefix); [discriminate|].
  intros H; injection H as <-; reflexivity.
Qed.

(* ===================================================================== *)
(** * Building an upgrader *)
(* ===================================================================== *)

(** [for_engine] knows two engines.  For ["mysql"] and ["sqlite3"] it
    builds an upgrader on the given directory and table name; for every
    other name it raises "unknown database requested <name>". *)
Theorem for_engine_known_engines (db_type upgrades_path table_name : string) :
  (db_type = "mysql" \/ db_type = "sqlite3" ->
   exists self,
     for_engine db_type upgrades_path table_name = ok self
     /\ directory self = upgrades_path
     /\ get_table self = table_name
     /\ TABLE_STRUCTURE db_type = Some (snd (table self)))
  /\ (db_type <> "mysql" -> db_type <> "sqlite3" ->
      for_engine db_type upgrades_path table_name
      = raise (Exception ("unknown database requested " ++ db_type))).
Proof.
  split.
  - intros [->| ->]; eexists; repeat split; reflexivity.
  - intros Hm Hs. unfold for_engine, TABLE_STRUCTURE.
    apply String.eqb_neq in Hm, Hs. rewrite Hm, Hs. reflexivity.
Qed.

(** The statement [create_version_table] sends for an upgrader built by
    [for_engine] is the engine's template with the table name in its one
    slot, whatever the table name is. *)
Theorem create_query_of_engine (upgrades_path table_name : string)
  (self : SimpleUpgrader) :
  (for_engine "sqlite3" upgrades_path table_name = ok self ->
   create_query self
   = nl ++ "CREATE TABLE " ++ table_name ++ " (" ++ nl
        ++ "    id int," ++ nl
        ++ "    applied text default datetime" ++ nl ++ ")")
  /\ (for_engine "mysql" upgrades_path table_name = ok self ->
      create_query self
      = nl ++ "CREATE TABLE `" ++ table_name ++ "` (" ++ nl
           ++ "  `id` int(11) unsigned NOT NULL," ++ nl
           ++ "  `applied` timestamp NOT NULL DEFAULT CURRENT_TIMESTAMP," ++ nl
           ++ "  PRIMARY KEY (`id`)" ++ nl
           ++ ") ENGINE=InnoDB DEFAULT CHARSET=utf8;" ++ nl).
Proof.
  split; intros H; injection H as <-; reflexivity.
Qed.

(* ===================================================================== *)
(** * Loading the scripts of a version *)
(* ===================================================================== *)

Section Loading.

Variable fs : FileSystem.
Variable self : SimpleUpgrader.

(** [load_upgrade_script] returns what opening [<path>/<name>.sql] returns,
    and raises what opening it raises; the [Exception] written after the
    [with] block is never reached. *)
Lemma load_upgrade_script_reads (script_path script_name : string) :
  load_upgrade_script fs script_path script_name
  = open_read fs (path_join script_path (script_name ++ ".sql")).
Proof. reflexivity. Qed.

Lemma load_upgrade_components_names (upgrade_path : string) (manifest : list string) :
  forall scripts,
    load_upgrade_components fs upgrade_path manifest = ok scripts ->
    map fst scripts = map rstrip manifest.
Proof.
  unfold load_upgrade_components.
  induction manifest as [|line rest IH]; intros scripts; cbn [mapE map].
  - intros H; inversion H; reflexivity.
  - destruct (load_upgrade_script fs upgrade_path (rstrip line)) as [e|sql];
      cbn [bindE ok]; [discriminate|].
    destruct (mapE _ rest) as [e|tail]; cbn [bindE ok]; [discriminate|].
    intros H; inversion H; subst. cbn [map fst]. f_equal. exact (IH tail eq_refl).
Qed.

(** X3.  With a manifest that opens and whose scripts all load, [load_upgrade]
    gives the scripts in the order of the manifest's lines, each name being
    its line without trailing white space. *)
Lemma load_upgrade_follows_manifest (version : Z) (manifest : string)
  (scripts : list (string * string)) :
  let version_dir := path_join (directory self) (str_int version) in
  open_read fs (path_join version_dir FILE_MANIFEST) = ok manifest ->
  load_upgrade_components fs version_dir (readlines manifest) = ok scripts ->
  load_upgrade fs self version = ok scripts
  /\ map fst scripts = map rstrip (readlines manifest).
Proof.
  intros version_dir Hopen Hload. split.
  - unfold load_upgrade, scripts_from_manifestfile. fold version_dir.
    rewrite Hopen. cbn [bindE ok]. rewrite Hload. reflexivity.
  - exact (load_upgrade_components_names _ _ _ Hload).
Qed.

(** X4.  A manifest that cannot be opened for another reason than absence makes
    the load fail with "missing manifest file". *)
Lemma load_upgrade_manifest_unreadable (version : Z) (errno : Z) (text : string) :
  open_read fs (path_join (path_join (directory self) (str_int version)) FILE_MANIFEST)
  = raise (IOError errno text) ->
  errno <> 2 ->
  load_upgrade fs self version = raise (Exception "missing manifest file").
Proof.
  intros Hopen Hne. unfold load_upgrade, scripts_from_manifestfile.
  rewrite Hopen. cbn [bindE raise].
  destruct (errno =? 2) eqn:E; [apply Z.eqb_eq in E; contradiction|reflexivity].
Qed.

(** A directory scan in which every file gets the key [True] loads the
    scripts in the order of the listing: the sort has nothing to move. *)
Lemma directory_scan_in_listing_order (version_dir : string) (names : list string) :
  listdir fs version_dir = ok names ->
  Forall (fun name => script_prefix name = ok true) names ->
  scripts_from_upgradedir fs version_dir
  = load_upgrade_components fs version_dir
      (map (fun x => slice_to x (rfind "." x)) names).
Proof.
  intros Hlist Hkeys. unfold scripts_from_upgradedir.
  rewrite Hlist. cbn [bindE ok].
  rewrite (mapE_constant script_prefix true names Hkeys). cbn [bindE ok].
  destruct (combine_constant_keys true names) as [Hall Hnames].
  rewrite (sort_by_equal_keys _ true Hall), Hnames. reflexivity.
Qed.

End Loading.

(** ** The order and the contents of what is loaded *)

Section MoreLoading.

Variable fs : FileSystem.
Variable self : SimpleUpgrader.

Notation "'positive'" :=
  (fun name : string => match script_prefix name with inr true => true | _ => false end).
Notation "'strip_extension'" := (fun x : string => slice_to x (rfind "." x)).

(** X5.  [load_upgrade_components] reads one script per line, in the order
    of the lines: the name of a script is its line without trailing white
    space, its text is what [load_upgrade_script] reads under that name.
    It stops at the first line whose script cannot be read and raises that
    script's exception. *)
Theorem load_upgrade_components_reads_each_line (upgrade_path : string)
  (manifest : list string) :
  match load_upgrade_components fs upgrade_path manifest with
  | inr components =>
      map fst components = map rstrip manifest
      /\ Forall (fun script =>
                   load_upgrade_script fs upgrade_path (fst script) = ok (snd script))
                components
  | inl e =>
      exists before line after,
        manifest = (before ++ line :: after)%list
        /\ load_upgrade_script fs upgrade_path (rstrip line) = raise e
        /\ Forall (fun l =>
                     exists sql,
                       load_upgrade_script fs upgrade_path (rstrip l) = ok sql)
                  before
  end.
Proof.
  unfold load_upgrade_components.
  induction manifest as [|line rest IH]; cbn [mapE map].
  - split; [reflexivity|constructor].
  - destruct (load_upgrade_script fs upgrade_path (rstrip line)) as [e|sql] eqn:Hline;
      cbn [bindE ok].
    + exists [], line, rest. repeat split; [exact Hline|constructor].
    + destruct (mapE _ rest) as [e|components]; cbn [bindE ok].
      * destruct IH as (before & bad & after & -> & Hbad & Hbefore).
        exists (line :: before), bad, after. repeat split; [exact Hbad|].
        constructor; [eauto|exact Hbefore].
      * destruct IH as [Hnames Hread]. cbn [map fst]. split; [now rewrite Hnames|].
        constructor; [exact Hline|exact Hread].
Qed.

(** X6.  A directory scan in which every listed name has an ordering key
    loads first the files whose prefix is not positive, then the files
    whose prefix is positive, each group in the order of the listing; among
    files with positive prefixes the numbers themselves play no part. *)
Theorem directory_scan_order (version_dir : string) (names : list string) :
  listdir fs version_dir = ok names ->
  Forall (fun name => exists key, script_prefix name = ok key) names ->
  scripts_from_upgradedir fs version_dir
  = load_upgrade_components fs version_dir
      (map strip_extension
           (filter (fun name => negb (positive name)) names
            ++ filter positive names)).
Proof.
  intros Hlist Hkeys. unfold scripts_from_upgradedir.
  rewrite Hlist. cbn [bindE ok].
  rewrite (mapE_total script_prefix false names Hkeys). cbn [bindE ok].
  rewrite sort_by_bool_key, map_app.
  rewrite (filter_combine_keys
             (fun x => match script_prefix x with inr b => b | inl _ => false end)
             negb names).
  rewrite (filter_combine_keys
             (fun x => match script_prefix x with inr b => b | inl _ => false end)
             (fun b => b) names).
  f_equal. f_equal. f_equal; apply filter_ext; intros name;
    destruct (script_prefix name) as [e|[|]]; reflexivity.
Qed.

(** X7.  A directory scan fails with "invalid prefix" as soon as one listed
    name has no ordering key, wherever it is in the listing and whatever
    the other names are; no script is read. *)
Theorem directory_scan_rejects_listing (version_dir : string) (names : list string)
  (name : string) (e : exn) :
  listdir fs version_dir = ok names ->
  In name names ->
  script_prefix name = raise e ->
  scripts_from_upgradedir fs version_dir = raise (Exception "invalid prefix").
Proof.
  intros Hlist Hin Hname. unfold scripts_from_upgradedir.
  rewrite Hlist. cbn [bindE ok].
  assert (Hinvalid : script_prefix name = raise (Exception "invalid prefix")).
  { rewrite Hname. f_equal. exact (script_prefix_raises name e Hname). }
  rewrite (mapE_raises script_prefix (Exception "invalid prefix") name names
             script_prefix_raises Hin Hinvalid).
  reflexivity.
Qed.

(** X8.  Without a manifest, and with a listing of [.sql] files whose
    prefixes are all positive, [load_upgrade] returns one script per listed
    file in the order of the listing.  The script's name is the file name
    without [.sql] and without trailing white space, and its text is read
    from the file of that name. *)
Theorem load_upgrade_scans_directory (version : Z) (text : string)
  (bases : list string) :
  let version_dir := path_join (directory self) (str_int version) in
  open_read fs (path_join version_dir FILE_MANIFEST) = raise (IOError 2 text) ->
  listdir fs version_dir = ok (map (fun base => base ++ ".sql") bases) ->
  Forall (fun base => script_prefix (base ++ ".sql") = ok true) bases ->
  load_upgrade fs self version
  = mapE (fun base =>
            bindE (open_read fs (path_join version_dir (rstrip base ++ ".sql")))
                  (fun sql => ok (rstrip base, sql)))
         bases.
Proof.
  intros version_dir Hmanifest Hlist Hkeys.
  unfold load_upgrade, scripts_from_manifestfile. fold version_dir.
  rewrite Hmanifest. cbn [bindE raise Z.eqb Pos.eqb].
  rewrite (directory_scan_in_listing_order fs version_dir _ Hlist).
  2:{ apply Forall_forall. intros name Hname. apply in_map_iff in Hname.
      destruct Hname as (base & <- & Hbase).
      rewrite Forall_forall in Hkeys. exact (Hkeys base Hbase). }
  rewrite map_map. unfold load_upgrade_components, load_upgrade_script.
  clear Hlist Hkeys. induction bases as [|base bases IH]; [reflexivity|].
  cbn [map mapE]. rewrite strip_sql_extension, IH. reflexivity.
Qed.

End MoreLoading.

(* ===================================================================== *)
(** * The available versions *)
(* ===================================================================== *)

Section Versions.

Variable fs : FileSystem.
Variable self : SimpleUpgrader.

(** X9.  [get_available_upgrades] returns the entries of the upgrades
    directory, each as often as it is listed, in byte-wise lexicographic
    order. *)
Theorem get_available_upgrades_sorted (names : list string) :
  listdir fs (directory self) = ok names ->
  exists versions,
    get_available_upgrades fs self = ok versions
    /\ Permutation versions names
    /\ StronglySorted (fun a b => String.leb a b = true) versions.
Proof.
  intros Hlist. unfold get_available_upgrades. rewrite Hlist. cbn [bindE ok].
  eexists. split; [reflexivity|]. split.
  - apply sort_by_permutation.
  - apply sort_strings_sorted.
Qed.

(** X10.  [get_latest_upgrade_version] is 0 for an empty upgrades directory;
    otherwise it is [int] of the entry that is greatest in lexicographic
    order, so it raises [ValueError] when that entry is not a number. *)
Theorem get_latest_upgrade_version_greatest (names : list string) :
  listdir fs (directory self) = ok names ->
  (names = [] -> get_latest_upgrade_version fs self = ok 0)
  /\ (names <> [] ->
      exists greatest,
        In greatest names
        /\ (forall name, In name names -> String.leb name greatest = true)
        /\ get_latest_upgrade_version fs self = int greatest).
Proof.
  intros Hlist.
  pose proof (sort_by_permutation (fun s => s) String.ltb names) as Hperm.
  pose proof (sort_strings_sorted names) as Hsorted.
  unfold get_latest_upgrade_version, get_available_upgrades.
  rewrite Hlist. cbn [bindE ok].
  fold (sort_strings names) in Hperm.
  set (versions := sort_strings names) in *. split.
  - intros Hnil. subst versions. rewrite Hnil. reflexivity.
  - intros Hne. destruct (last_item versions) as [greatest|] eqn:Hlast.
    + destruct (sorted_last_is_greatest versions greatest Hsorted Hlast) as [Hin Hmax].
      exists greatest. split; [exact (Permutation_in _ Hperm Hin)|].
      split; [|reflexivity].
      intros name Hname. apply Hmax.
      exact (Permutation_in _ (Permutation_sym Hperm) Hname).
    + apply last_item_none in Hlast. subst versions. rewrite Hlast in Hperm.
      apply Permutation_nil in Hperm. contradiction.
Qed.

End Versions.

Section EqualWidth.

Variable fs : FileSystem.
Variable self : SimpleUpgrader.

(** X11.  When the entries of the upgrades directory are numerals of one
    width (written with leading zeros where needed),
    [get_latest_upgrade_version] returns the largest of their values. *)
Theorem get_latest_upgrade_version_equal_width (names : list string) (width : nat) :
  listdir fs (directory self) = ok names ->
  names <> [] ->
  (forall name, In name names ->
     String.length name = width /\ exists k, digits name = Some k) ->
  exists latest,
    get_latest_upgrade_version fs self = ok latest
    /\ (exists name, In name names /\ digits name = Some latest)
    /\ (forall name k, In name names -> digits name = Some k -> k <= latest).
Proof.
  intros Hlist Hne Hnum.
  pose proof (sort_by_permutation (fun s => s) String.ltb names) as Hperm.
  pose proof (sort_strings_sorted names) as Hsorted.
  fold (sort_strings names) in Hperm.
  unfold get_latest_upgrade_version, get_available_upgrades.
  rewrite Hlist. cbn [bindE ok].
  destruct (last_item (sort_strings names)) as [greatest|] eqn:Hlast.
  - destruct (sorted_last_is_greatest _ greatest Hsorted Hlast) as [Hin Hmax].
    apply (Permutation_in _ Hperm) in Hin.
    destruct (Hnum greatest Hin) as [Hw (latest & Hlatest)].
    exists latest. unfold int. rewrite (parse_int_of_digits _ _ Hlatest).
    split; [reflexivity|]. split; [exists greatest; auto|].
    intros name k Hname Hk.
    destruct (Hnum name Hname) as [Hw' _].
    assert (Hle : String.leb name greatest = true).
    { apply Hmax. exact (Permutation_in _ (Permutation_sym Hperm) Hname). }
    unfold digits in Hk, Hlatest.
    destruct name as [|c1 n1]; [discriminate|].
    destruct greatest as [|c2 n2]; [discriminate|].
    destruct (digits_from_compare _ _ 0 0 k latest (eq_trans Hw' (eq_sym Hw)) Hk Hlatest)
      as (_ & _ & Hcmp).
    unfold String.leb in Hle. rewrite (Hcmp eq_refl) in Hle.
    destruct (Z.compare_spec k latest) as [E|E|E]; [lia|lia|discriminate].
  - apply last_item_none in Hlast. rewrite Hlast in Hperm.
    apply Permutation_nil in Hperm. contradiction.
Qed.

End EqualWidth.

(* ===================================================================== *)
(** * The tree-shaped script store *)
(* ===================================================================== *)

Section Tree.

Import TreeFS.

Variable root : tree.

Lemma resolve_app (l1 l2 : list string) :
  forall t,
    resolve t (l1 ++ l2)
    = match resolve t l1 with
      | Some t' => resolve t' l2
      | None => None
      end.
Proof.
  induction l1 as [|c l1 IH]; intros t; [reflexivity|].
  cbn [app resolve]. destruct (is_empty c); [apply IH|].
  destruct t as [content| |entries]; try reflexivity.
  destruct (find_entry c entries); [apply IH|reflexivity].
Qed.

Lemma find_entry_in (name : string) (entries : list (string * tree)) (t : tree) :
  find_entry name entries = Some t -> In name (map fst entries).
Proof.
  induction entries as [|[n t'] rest IH]; [discriminate|].
  cbn [find_entry map fst]. destruct (String.eqb n name) eqn:E.
  - apply String.eqb_eq in E. intros _. left. exact E.
  - intros H. right. exact (IH H).
Qed.

(** Looking up [os.path.join(dir, name)] is looking up [name] among the
    entries of [dir]. *)
Lemma lookup_join (dir name : string) :
  is_empty name = false ->
  contains "/" name = false ->
  lookup root (path_join dir name)
  = match lookup root dir with
    | Some (Folder entries) => find_entry name entries
    | _ => None
    end.
Proof.
  intros Hname Hslash.
  assert (Hone : forall t, resolve t [name]
                           = match t with
                             | Folder entries => find_entry name entries
                             | _ => None
                             end).
  { intros t. cbn [resolve]. rewrite Hname.
    destruct t as [content| |entries]; try reflexivity.
    destruct (find_entry name entries); reflexivity. }
  assert (Hsplit : split "/" name = [name])
    by exact (split_without_separator "/" name Hslash).
  unfold path_join, lookup.
  replace (startswith "/" name) with false.
  2:{ destruct name as [|c name]; [discriminate|].
      cbn [contains] in Hslash. apply orb_false_iff in Hslash.
      destruct Hslash as [Hc _]. unfold startswith. cbn [String.prefix].
      destruct (ascii_dec "/" c) as [<-|_]; [|reflexivity].
      unfold chr_eqb in Hc. rewrite Ascii.eqb_refl in Hc. discriminate. }
  destruct dir as [|d dir'] eqn:Hdir.
  - cbn [is_empty]. rewrite Hsplit, Hone. reflexivity.
  - cbn [is_empty]. rewrite <- Hdir.
    destruct (last_char dir) as [c|] eqn:Hlast.
    + destruct (Ascii.eqb c "/") eqn:Hc.
      * apply Ascii.eqb_eq in Hc. subst c.
        destruct (last_char_inv dir "/" Hlast) as (dir0 & Hdir0).
        rewrite Hdir0, append_assoc. cbn [String.append].
        rewrite !split_append, Hsplit, !resolve_app.
        destruct (resolve root (split "/" dir0)) as [t|]; [|reflexivity].
        cbn [split resolve is_empty]. apply Hone.
      * replace (match c with "/"%char => dir ++ name | _ => dir ++ "/" ++ name end)
          with (dir ++ String "/" name).
        2:{ destruct c as [[|] [|] [|] [|] [|] [|] [|] [|]];
              try reflexivity; discriminate. }
        rewrite split_append, Hsplit, resolve_app.
        destruct (resolve root (split "/" dir)) as [t|]; [apply Hone|reflexivity].
    + rewrite (last_char_none dir Hlast) in Hdir. discriminate.
Qed.

(** A file that opens is listed in its directory. *)
Lemma opened_file_is_listed (dir name content : string) :
  is_empty name = false ->
  contains "/" name = false ->
  open_read (mount root) (path_join dir name) = ok content ->
  exists names, listdir (mount root) dir = ok names /\ In name names.
Proof.
  intros Hname Hslash. cbn [open_read listdir mount].
  rewrite (lookup_join dir name Hname Hslash).
  destruct (lookup root dir) as [[c| |entries]|]; try discriminate.
  destruct (find_entry name entries) as [t|] eqn:Hfind; [|discriminate].
  intros _. exists (map fst entries). split; [reflexivity|].
  exact (find_entry_in name entries t Hfind).
Qed.

(** The directory scan of a version whose manifest opens always fails: the
    manifest itself is in the listing, and its name has no hyphen. *)
Lemma directory_scan_meets_manifest (version_dir manifest : string) :
  open_read (mount root) (path_join version_dir FILE_MANIFEST) = ok manifest ->
  scripts_from_upgradedir (mount root) version_dir
  = raise (Exception "invalid prefix").
Proof.
  intros Hopen.
  destruct (opened_file_is_listed version_dir FILE_MANIFEST manifest
              eq_refl eq_refl Hopen) as (names & Hlist & Hin).
  unfold scripts_from_upgradedir. rewrite Hlist. cbn [bindE ok].
  rewrite (mapE_raises script_prefix (Exception "invalid prefix") FILE_MANIFEST
             names script_prefix_raises Hin eq_refl).
  reflexivity.
Qed.

(** X12.  With a manifest that opens, a listed script that is not found does
    not surface as a failure to read that script: [load_upgrade] raises
    "invalid prefix". *)
Lemma load_upgrade_missing_script (self : SimpleUpgrader) (version : Z)
  (manifest text : string) :
  let version_dir := path_join (directory self) (str_int version) in
  open_read (mount root) (path_join version_dir FILE_MANIFEST) = ok manifest ->
  load_upgrade_components (mount root) version_dir (readlines manifest)
  = raise (IOError 2 text) ->
  load_upgrade (mount root) self version = raise (Exception "invalid prefix").
Proof.
  intros version_dir Hopen Hmissing.
  unfold load_upgrade, scripts_from_manifestfile. fold version_dir.
  rewrite Hopen. cbn [bindE ok]. rewrite Hmissing. cbn [raise Z.eqb Pos.eqb].
  exact (directory_scan_meets_manifest version_dir manifest Hopen).
Qed.

End Tree.

(* ===================================================================== *)
(** * Facts that hold for every database handle and script store *)
(* ===================================================================== *)

Section AnyHandle.

Variable store : Type.
Variable engine : string -> store -> result (store * cursor_result).
Variable fs : FileSystem.
Variable self : SimpleUpgrader.

Notation "'active_version'" := (get_active_version store engine self).
Notation "'upgrade'" := (perform_upgrade store engine fs self).

Lemma get_active_version_query_raises (w : world store) (e : exn) :
  engine (select_max_query (get_table self)) (working (conn w)) = raise e ->
  active_version w = (ok (-1), w).
Proof.
  intros Hq.
  unfold get_active_version, bindM, tryM, cursor_execute.
  rewrite Hq. reflexivity.
Qed.

Lemma get_active_version_query_returns (w : world store) db r :
  engine (select_max_query (get_table self)) (working (conn w)) = ok (db, r) ->
  exists w',
    fst (active_version w)
    = match res_rows r with
      | [] => raise (TypeError "'NoneType' object has no attribute '__getitem__'")
      | [] :: _ => raise (IndexError "tuple index out of range")
      | (Some version :: _) :: _ => ok version
      | (None :: _) :: _ => ok 0
      end
    /\ snd (active_version w) = w'
    /\ working (conn w') = db
    /\ committed (conn w') = committed (conn w)
    /\ stdout w' = stdout w.
Proof.
  intros Hq.
  unfold get_active_version, bindM, tryM, cursor_execute, cursor_fetchone.
  rewrite Hq. cbn.
  destruct (res_rows r) as [|[|[version|] cells] more]; cbn;
    eexists; repeat split; reflexivity.
Qed.

(** The program never moves the committed contents, the working contents
    or the console when it only reads the active version and the query
    itself changes nothing. *)
Lemma get_active_version_frame (w w1 : world store) (v : Z) :
  active_version w = (ok v, w1) ->
  committed (conn w1) = committed (conn w) /\ stdout w1 = stdout w.
Proof.
  unfold get_active_version, bindM, tryM, cursor_execute, cursor_fetchone.
  destruct (engine _ _) as [e|[db r]]; cbn.
  - intros H; inversion H; subst; auto.
  - destruct (res_rows r) as [|[|[version|] cells] more]; cbn;
      intros H; inversion H; subst; auto.
Qed.

(** C4.  [get_active_version] returns -1 whenever the [SELECT MAX(id)]
    query raises, whatever the exception is; it returns 0 when the query
    succeeds and the maximum is null; otherwise it returns the integer the
    query reports as the maximum id of the changelog table. *)
Theorem get_active_version_sentinels (w : world store) :
  let query := engine (select_max_query (get_table self)) (working (conn w)) in
  (forall e, query = raise e -> active_version w = (ok (-1), w))
  /\ (forall db cells more n,
        query = ok (db, {| res_rows := (None :: cells) :: more; res_rowcount := n |}) ->
        fst (active_version w) = ok 0)
  /\ (forall db version cells more n,
        query = ok (db, {| res_rows := (Some version :: cells) :: more; res_rowcount := n |}) ->
        fst (active_version w) = ok version).
Proof.
  cbv zeta. split; [|split].
  - intros e Hq. exact (get_active_version_query_raises w e Hq).
  - intros db cells more n Hq.
    destruct (get_active_version_query_returns w _ _ Hq) as (w' & Hv & _).
    exact Hv.
  - intros db version cells more n Hq.
    destruct (get_active_version_query_returns w _ _ Hq) as (w' & Hv & _).
    exact Hv.
Qed.

(** What [perform_upgrade] does once the active version is known not to be
    the sentinel: no table is created, and the outcome depends only on how
    the active version compares with the latest available one. *)
Lemma perform_upgrade_initialised (w w1 : world store) (v latest : Z) :
  active_version w = (ok v, w1) ->
  v <> -1 ->
  get_latest_upgrade_version fs self = ok latest ->
  let banner := "Database currently at version " ++ str_int v ++ "." in
  let w2 := {| conn := conn w1; stdout := (stdout w ++ [banner; ""])%list |} in
  upgrade w
  = if v - latest =? 0 then
      (ok 0, {| conn := conn w1;
                stdout := (stdout w ++ [banner; ""; "No upgrades to be applied."])%list |})
    else
      match upgrade_loop store engine fs self (xrange v latest) None w2 with
      | ((_, inr _), w') => (ok 0, w')
      | ((version, inl e), w') =>
          bindM store (connection_rollback store) (fun _ =>
          bindM store (print store (join nl ["error upgrading to version "
                                           ++ str_version version ++ nl;
                                         str_exn e; ""])) (fun _ =>
          retM store 1)) w'
      end.
Proof.
  intros Hv Hne Hlatest banner w2.
  destruct (get_active_version_frame w w1 v Hv) as [_ Hout].
  unfold perform_upgrade, bindM, liftE, tryM, print, retM.
  rewrite Hv. unfold ok. cbv beta iota.
  rewrite Hlatest. unfold ok. cbv beta iota.
  assert (Hs : (v =? -1) = false) by (apply Z.eqb_neq; exact Hne).
  rewrite Hs. cbv beta iota. cbn [conn stdout].
  rewrite Hout, <- !app_assoc. cbn [app].
  destruct (v - latest =? 0).
  - cbn [conn stdout]. rewrite <- app_assoc. reflexivity.
  - reflexivity.
Qed.

(** C6.  When the active version recorded in the database equals the latest
    available upgrade version, [perform_upgrade] applies no script, leaves
    the database (the changelog with it) as it was and returns 0.  Nothing
    but the query of [get_active_version] reaches the connection, which is
    left as that query left it ([w1]); the third premise says that this
    query, a [SELECT], changes no data.  The console shows no applied
    script. *)
Theorem perform_upgrade_nothing_to_do (w w1 : world store) (v : Z) :
  active_version w = (ok v, w1) ->
  v <> -1 ->
  working (conn w1) = working (conn w) ->
  get_latest_upgrade_version fs self = ok v ->
  exists w',
    upgrade w = (ok 0, w')
    /\ conn w' = conn w1
    /\ working (conn w') = working (conn w)
    /\ committed (conn w') = committed (conn w)
    /\ stdout w'
       = (stdout w ++ [("Database currently at version " ++ str_int v ++ ".")%string;
                       ""; "No upgrades to be applied."])%list.
Proof.
  intros Hv Hne Hread Hlatest.
  destruct (get_active_version_frame w w1 v Hv) as [Hcommitted _].
  rewrite (perform_upgrade_initialised w w1 v v Hv Hne Hlatest).
  rewrite Z.sub_diag. cbn [Z.eqb].
  eexists. split; [reflexivity|]. cbn [conn stdout]. auto.
Qed.

(** C10.  When the active version recorded in the database is strictly
    greater than the latest available upgrade version, the loop of
    [perform_upgrade] ranges over nothing: no script is applied, no
    changelog record is inserted, and the result is 0.  As in the previous
    statement the connection is left as the query of [get_active_version]
    left it, and that query is taken to change no data. *)
Theorem perform_upgrade_ahead_of_latest (w w1 : world store) (v latest : Z) :
  active_version w = (ok v, w1) ->
  v <> -1 ->
  working (conn w1) = working (conn w) ->
  get_latest_upgrade_version fs self = ok latest ->
  latest < v ->
  xrange v latest = []
  /\ exists w',
      upgrade w = (ok 0, w')
      /\ conn w' = conn w1
      /\ working (conn w') = working (conn w)
      /\ committed (conn w') = committed (conn w)
      /\ stdout w'
         = (stdout w ++ [("Database currently at version " ++ str_int v ++ ".")%string;
                         ""])%list.
Proof.
  intros Hv Hne Hread Hlatest Hlt.
  assert (Hrange : xrange v latest = []).
  { unfold xrange. replace (Z.to_nat (latest - v)) with 0%nat by lia. reflexivity. }
  split; [exact Hrange|].
  destruct (get_active_version_frame w w1 v Hv) as [Hcommitted _].
  rewrite (perform_upgrade_initialised w w1 v latest Hv Hne Hlatest).
  assert (Hs : (v - latest =? 0) = false) by (apply Z.eqb_neq; lia).
  rewrite Hs, Hrange. cbn [upgrade_loop].
  eexists. split; [reflexivity|]. cbn [conn stdout]. auto.
Qed.

(** What [perform_upgrade] does when the active version is the sentinel and
    the table can be created: it goes on as from version 0. *)
Lemma perform_upgrade_uninitialised (w w1 : world store) (latest : Z)
  (db : store) (r : cursor_result) :
  active_version w = (ok (-1), w1) ->
  engine (create_query self) (working (conn w1)) = ok (db, r) ->
  get_latest_upgrade_version fs self = ok latest ->
  let created := {| committed := committed (conn w1); working := db;
                    fetched := res_rows r; rowcount := res_rowcount r |} in
  let lines := ["Database currently at version -1.";
                ("Create version table " ++ get_table self ++ ": version => 0")%string;
                ""] in
  upgrade w
  = if 0 - latest =? 0 then
      (ok 0, {| conn := created;
                stdout := (stdout w ++ lines ++ ["No upgrades to be applied."])%list |})
    else
      match upgrade_loop store engine fs self (xrange 0 latest) None
              {| conn := created; stdout := (stdout w ++ lines)%list |} with
      | ((_, inr _), w') => (ok 0, w')
      | ((version, inl e), w') =>
          bindM store (connection_rollback store) (fun _ =>
          bindM store (print store (join nl ["error upgrading to version "
                                           ++ str_version version ++ nl;
                                         str_exn e; ""])) (fun _ =>
          retM store 1)) w'
      end.
Proof.
  intros Hv Hcreate Hlatest created lines.
  destruct (get_active_version_frame w w1 (-1) Hv) as [_ Hout].
  unfold perform_upgrade, bindM, liftE, tryM, print, retM.
  rewrite Hv. cbv beta iota delta [ok].
  rewrite Hlatest. cbv beta iota delta [ok].
  cbn [Z.eqb Pos.eqb]. unfold create_version_table, cursor_execute.
  cbn [conn stdout]. rewrite Hcreate. cbv beta iota delta [ok].
  cbn [conn stdout]. rewrite Hout, <- !app_assoc. cbn [app].
  destruct (0 - latest =? 0).
  - cbn [conn stdout]. rewrite <- app_assoc. reflexivity.
  - reflexivity.
Qed.

(** X13.  After a failed run the open transaction holds nothing: the rollback is
    the last thing done to the connection. *)
Lemma perform_upgrade_failure_rolls_back (w w' : world store) :
  upgrade w = (ok 1, w') -> working (conn w') = committed (conn w').
Proof.
  unfold perform_upgrade, bindM at 1.
  destruct (active_version w) as [[e|v] w1]; [discriminate|].
  unfold bindM at 1, liftE.
  destruct (get_latest_upgrade_version fs self) as [e|latest]; [discriminate|].
  unfold bindM at 1, print at 1.
  unfold bindM at 1, tryM.
  match goal with |- context [if ?b then _ else _] => destruct b end.
  - unfold bindM at 1, create_version_table, cursor_execute. cbn [conn stdout].
    destruct (engine _ _) as [e|[db r]].
    + cbn. discriminate.
    + cbn -[upgrade_loop Z.sub Z.eqb].
      destruct (0 - latest =? 0); [cbn; discriminate|].
      destruct (upgrade_loop _ _ _ _ _ _ _) as [[version [e|u]] w2].
      * cbn. intros H; inversion H; subst. reflexivity.
      * discriminate.
  - cbn -[upgrade_loop Z.sub Z.eqb].
    destruct (v - latest =? 0); [cbn; discriminate|].
    destruct (upgrade_loop _ _ _ _ _ _ _) as [[version [e|u]] w2].
    + cbn. intros H; inversion H; subst. reflexivity.
    + discriminate.
Qed.

End AnyHandle.

(** ** Effects and outcomes *)

Section AnyHandleMore.

Variable store : Type.
Variable engine : string -> store -> result (store * cursor_result).
Variable fs : FileSystem.
Variable self : SimpleUpgrader.

Notation "'announce'" := (fun script : string * string => (" > " ++ fst script)%string).



(** X16.  [get_active_version] only reads: whatever its outcome, the
    committed data and the console are as before, and when the query raises
    the whole connection is.  It never lets an exception of the database
    through: the only exceptions it raises are the [TypeError] and the
    [IndexError] of indexing a missing or empty row. *)
Theorem get_active_version_reads_only (w : world store) :
  let outcome := get_active_version store engine self w in
  committed (conn (snd outcome)) = committed (conn w)
  /\ stdout (snd outcome) = stdout w
  /\ (forall e, engine (select_max_query (get_table self)) (working (conn w)) = raise e ->
        snd outcome = w)
  /\ (forall e, fst outcome = raise e ->
        (exists text, e = TypeError text) \/ (exists text, e = IndexError text)).
Proof.
  cbv zeta.
  unfold get_active_version, bindM, tryM, cursor_execute, cursor_fetchone.
  destruct (engine _ _) as [e0|[db r]]; cbn.
  - repeat split; intros; discriminate.
  - destruct (res_rows r) as [|[|[version|] cells] more]; cbn;
      (split; [reflexivity|]); (split; [reflexivity|]);
      (split; [intros; discriminate|]); intros e He; try discriminate.
    + injection He as <-. left. eexists. reflexivity.
    + injection He as <-. right. eexists. reflexivity.
Qed.


End AnyHandleMore.

(* ===================================================================== *)
(** * The one-table database *)
(* ===================================================================== *)

Section OneTable.

Import MiniDB.

Variable tbl : string.
Variable rejects : string -> bool.
Variable counts_rows : bool.
Variable fs : FileSystem.

Notation "'db_engine'" := (engine tbl rejects counts_rows).

(** What the database does with the statements on the changelog. *)
Lemma engine_select (db : contents) :
  db_engine (select_max_query tbl) db
  = match changelog db with
    | None => raise (DatabaseError ("no such table: " ++ tbl))
    | Some ids => ok (db, {| res_rows := [[max_id ids]]; res_rowcount := -1 |})
    end.
Proof. unfold engine. rewrite String.eqb_refl. reflexivity. Qed.

Lemma engine_create (db_type structure : string) (db : contents) :
  TABLE_STRUCTURE db_type = Some structure ->
  db_engine (format0 structure tbl) db
  = match changelog db with
    | None => ok ({| changelog := Some []; journal := journal db |},
                  {| res_rows := []; res_rowcount := -1 |})
    | Some _ => raise (DatabaseError ("table " ++ tbl ++ " already exists"))
    end.
Proof.
  unfold TABLE_STRUCTURE.
  destruct (String.eqb db_type "mysql");
    [|destruct (String.eqb db_type "sqlite3"); [|discriminate]];
    intros H; injection H as <-; unfold engine, creates_table.
  - replace (String.eqb (format0 STRUCTURE_MYSQL tbl) (select_max_query tbl))
      with false by reflexivity.
    rewrite String.eqb_refl, orb_true_r. reflexivity.
  - replace (String.eqb (format0 STRUCTURE_SQLITE3 tbl) (select_max_query tbl))
      with false by reflexivity.
    rewrite String.eqb_refl. reflexivity.
Qed.

(** [max_id] is the SQL aggregate [MAX]: null on no rows, otherwise a
    recorded id that no recorded id exceeds. *)
Lemma max_id_spec (ids : list Z) :
  match max_id ids with
  | None => ids = []
  | Some m => In m ids /\ forall i, In i ids -> i <= m
  end.
Proof.
  induction ids as [|i rest IH]; cbn [max_id]; [reflexivity|].
  destruct (max_id rest) as [m|].
  - destruct IH as [Hin Hmax]. split.
    + destruct (Z.max_spec i m) as [[_ ->]|[_ ->]]; [right; exact Hin|left; reflexivity].
    + intros j [<-|Hj]; [lia|]. specialize (Hmax j Hj). lia.
  - subst rest. split; [left; reflexivity|].
    intros j [<-|[]]. lia.
Qed.

(** On this database [get_active_version] is -1 without the table, 0 on an
    empty table and the largest recorded id otherwise, and it changes
    neither the contents nor the console. *)
Lemma get_active_version_one_table (self : SimpleUpgrader) (w : world contents) :
  get_table self = tbl ->
  exists w',
    get_active_version contents db_engine self w
    = (ok match changelog (working (conn w)) with
          | None => -1
          | Some ids => match max_id ids with Some m => m | None => 0 end
          end, w')
    /\ working (conn w') = working (conn w)
    /\ committed (conn w') = committed (conn w)
    /\ stdout w' = stdout w.
Proof.
  intros Htbl.
  unfold get_active_version, bindM, tryM, cursor_execute, cursor_fetchone.
  rewrite Htbl, engine_select.
  destruct (changelog (working (conn w))) as [ids|]; cbn.
  - destruct (max_id ids); cbn; eexists; repeat split; reflexivity.
  - eexists; repeat split; reflexivity.
Qed.

(** C9.  On a fresh database, where the changelog table is absent and
    [get_active_version] is -1, [perform_upgrade] does not fail: it creates
    the table and carries on with active version 0.  With no upgrade
    directory it returns 0, and [get_active_version] is 0 afterwards.  This
    holds for the upgrader of either engine that [for_engine] knows. *)
Theorem perform_upgrade_fresh_database (db_type path : string)
  (self : SimpleUpgrader) (w : world contents) :
  for_engine db_type path tbl = ok self ->
  changelog (working (conn w)) = None ->
  listdir fs path = ok [] ->
  fst (get_active_version contents db_engine self w) = ok (-1)
  /\ exists w',
      perform_upgrade contents db_engine fs self w = (ok 0, w')
      /\ working (conn w')
         = {| changelog := Some []; journal := journal (working (conn w)) |}
      /\ committed (conn w') = committed (conn w)
      /\ stdout w'
         = (stdout w ++ ["Database currently at version -1.";
                         ("Create version table " ++ tbl ++ ": version => 0")%string;
                         ""; "No upgrades to be applied."])%list
      /\ fst (get_active_version contents db_engine self w') = ok 0.
Proof.
  intros Hself Hfresh Hnone.
  unfold for_engine in Hself.
  destruct (TABLE_STRUCTURE db_type) as [structure|] eqn:Hstructure; [|discriminate].
  injection Hself as <-.
  set (self0 := {| directory := path; table := (tbl, structure) |}).
  assert (Hquery : db_engine (select_max_query (get_table self0)) (working (conn w))
                   = raise (DatabaseError ("no such table: " ++ tbl))).
  { cbn [get_table self0 table fst]. rewrite engine_select, Hfresh. reflexivity. }
  pose proof (get_active_version_query_raises contents db_engine self0 w _ Hquery) as Hv.
  split; [rewrite Hv; reflexivity|].
  assert (Hmade : db_engine (create_query self0) (working (conn w))
                  = ok ({| changelog := Some []; journal := journal (working (conn w)) |},
                        {| res_rows := []; res_rowcount := -1 |})).
  { unfold create_query. cbn [self0 table fst snd].
    rewrite (engine_create db_type structure _ Hstructure), Hfresh. reflexivity. }
  assert (Hlatest : get_latest_upgrade_version fs self0 = ok 0).
  { unfold get_latest_upgrade_version, get_available_upgrades.
    cbn [directory self0]. rewrite Hnone. reflexivity. }
  rewrite (perform_upgrade_uninitialised contents db_engine fs self0 w w 0 _ _
             Hv Hmade Hlatest).
  cbn [Z.sub Z.eqb Z.opp Z.add].
  eexists. split; [reflexivity|].
  cbn [conn stdout working committed res_rows res_rowcount get_table table fst self0 app].
  repeat split.
  match goal with |- fst (get_active_version _ _ _ ?w') = _ =>
    destruct (get_active_version_one_table self0 w' eq_refl) as (w2 & Hv2 & _)
  end.
  rewrite Hv2. reflexivity.
Qed.

End OneTable.

(** ** The insert into the changelog *)

Section ChangelogInsert.

Import MiniDB.

Lemma strip_prefix_append (p s : string) : strip_prefix p (p ++ s) = Some s.
Proof.
  induction p as [|x p IH]; cbn; [now destruct s|].
  unfold chr_eqb. now rewrite Ascii.eqb_refl.
Qed.

Lemma literal_str_int (n : Z) : literal (str_int n) = Some n.
Proof.
  destruct n as [|p|p].
  - reflexivity.
  - rewrite str_int_positive.
    pose proof (digits_of_positive p) as H.
    unfold literal.
    destruct (Pos.to_uint p); cbn [NilEmpty.string_of_uint] in *; exact H.
  - rewrite str_int_negative. unfold literal.
    rewrite digits_of_positive. reflexivity.
Qed.

(** The database reads back the version the program wrote into its
    [INSERT] statement. *)
Lemma parse_insert_query (tbl : string) (version : Z) :
  parse_insert tbl (insert_query tbl version) = Some version.
Proof.
  unfold parse_insert, insert_query.
  replace ("INSERT INTO " ++ tbl ++ " (id) VALUES (" ++ str_int version ++ ")")
    with (("INSERT INTO " ++ tbl ++ " (id) VALUES (") ++ (str_int version ++ ")")).
  2:{ rewrite !append_assoc. reflexivity. }
  rewrite strip_prefix_append.
  rewrite last_char_append, slice_drops_last.
  apply literal_str_int.
Qed.

Variable tbl : string.
Variable rejects : string -> bool.

Notation "'db_engine'" := (engine tbl rejects true).

Lemma engine_insert (version : Z) (db : contents) (ids : list Z) :
  changelog db = Some ids ->
  db_engine (insert_query tbl version) db
  = ok ({| changelog := Some (ids ++ [version])%list; journal := journal db |},
        {| res_rows := []; res_rowcount := 1 |}).
Proof.
  intros Hids. unfold engine.
  replace (String.eqb (insert_query tbl version) (select_max_query tbl))
    with false by reflexivity.
  replace (creates_table tbl (insert_query tbl version)) with false by reflexivity.
  rewrite parse_insert_query, Hids. reflexivity.
Qed.

End ChangelogInsert.

(** ** Versions that load and run *)

Section Pending.

Import MiniDB.

Variable tbl : string.
Variable rejects : string -> bool.
Variable fs : FileSystem.
Variable self : SimpleUpgrader.
Hypothesis table_name : get_table self = tbl.

Notation "'db_engine'" := (engine tbl rejects true).
Notation "'runs'" :=
  (fun script : string * string =>
     forall db,
       db_engine (snd script) db
       = ok ({| changelog := changelog db;
                journal := (journal db ++ [snd script])%list |},
             {| res_rows := []; res_rowcount := -1 |})).

(** [apply_upgrade] on scripts the database runs: each one is executed, in
    order, and announced on the console; nothing is committed. *)
Lemma apply_upgrade_ordinary (scripts : list (string * string)) :
  Forall runs scripts ->
  forall w : world contents,
  exists w',
    apply_upgrade contents db_engine scripts w = (ok tt, w')
    /\ committed (conn w') = committed (conn w)
    /\ working (conn w')
       = {| changelog := changelog (working (conn w));
            journal := (journal (working (conn w)) ++ map snd scripts)%list |}
    /\ stdout w' = (stdout w ++ map (fun script => (" > " ++ fst script)%string) scripts)%list.
Proof.
  induction 1 as [|script rest Hscript _ IH]; intros w.
  - exists w. cbn [apply_upgrade map]. unfold retM. rewrite !app_nil_r.
    destruct (working (conn w)); repeat split; reflexivity.
  - cbn [apply_upgrade]. unfold bindM at 1, cursor_execute.
    rewrite (Hscript (working (conn w))). cbv beta iota delta [ok].
    unfold bindM at 1, print at 1. cbv beta iota delta [ok].
    match goal with |- context [apply_upgrade _ _ rest ?w1] =>
      destruct (IH w1) as (w' & Hrun & Hc & Hw & Hout)
    end.
    exists w'. rewrite Hrun, Hc, Hw, Hout.
    cbn [conn stdout committed working changelog journal map fst snd join
         res_rows res_rowcount no_rows].
    rewrite <- !app_assoc. repeat split; reflexivity.
Qed.

(** One turn of the loop on a version that loads and runs: its scripts and
    its record are committed together. *)
Lemma upgrade_to_success (version : Z) (scripts : list (string * string))
  (w : world contents) (ids : list Z) :
  load_upgrade fs self version = ok scripts ->
  Forall runs scripts ->
  changelog (working (conn w)) = Some ids ->
  exists w',
    upgrade_to contents db_engine fs self version w = (ok tt, w')
    /\ working (conn w')
       = {| changelog := Some (ids ++ [version])%list;
            journal := (journal (working (conn w)) ++ map snd scripts)%list |}
    /\ committed (conn w') = working (conn w').
Proof.
  intros Hload Hruns Hids.
  unfold upgrade_to, bindM at 1, liftE. rewrite Hload. cbv beta iota delta [ok].
  unfold bindM at 1, print at 1. cbv beta iota delta [ok].
  match goal with |- context [bindM _ (apply_upgrade _ _ scripts) _ ?w1] =>
    destruct (apply_upgrade_ordinary scripts Hruns w1) as (w2 & Hrun & Hc & Hw & _)
  end.
  unfold bindM at 1. rewrite Hrun. cbv beta iota delta [ok].
  unfold bindM at 1, create_version_record, cursor_execute.
  rewrite table_name.
  rewrite (engine_insert tbl rejects version (working (conn w2)) ids)
    by (rewrite Hw; exact Hids).
  cbv beta iota delta [ok].
  unfold bindM at 1, connection_commit. cbv beta iota delta [ok].
  unfold bindM at 1, cursor_rowcount. cbv beta iota delta [ok].
  cbn [conn rowcount res_rowcount Z.eqb Pos.eqb negb].
  unfold print. eexists. split; [reflexivity|].
  cbn [conn working committed]. rewrite Hw. cbn [journal conn working].
  split; reflexivity.
Qed.

Variable scripts_of : Z -> list (string * string).

(** The loop over [xrange(a, b)] when every version in [a+1 .. b] loads and
    runs. *)
Lemma upgrade_loop_success (n : nat) :
  forall (a b : Z) (version : option Z) (w : world contents) (ids : list Z),
    Z.to_nat (b - a) = n ->
    changelog (working (conn w)) = Some ids ->
    (forall k, a < k <= b ->
       load_upgrade fs self k = ok (scripts_of k) /\ Forall runs (scripts_of k)) ->
    exists w' version',
      upgrade_loop contents db_engine fs self (xrange a b) version w
      = ((version', ok tt), w')
      /\ working (conn w')
         = {| changelog := Some (ids ++ map (fun i => i + 1) (xrange a b))%list;
              journal := (journal (working (conn w))
                          ++ flat_map (fun i => map snd (scripts_of (i + 1)))
                                      (xrange a b))%list |}
      /\ (a < b -> committed (conn w') = working (conn w')).
Proof.
  induction n as [|n IH]; intros a b version w ids Hn Hids Hall.
  - assert (Hba : b <= a) by lia.
    rewrite (xrange_empty a b Hba). cbn [upgrade_loop map flat_map].
    exists w, version. rewrite !app_nil_r. split; [reflexivity|].
    split; [|lia]. destruct (working (conn w)). cbn in Hids. subst. reflexivity.
  - assert (Hab : a < b) by lia.
    rewrite (xrange_step a b Hab). cbn [upgrade_loop map flat_map].
    destruct (Hall (a + 1) ltac:(lia)) as [Hload Hruns].
    destruct (upgrade_to_success (a + 1) _ w ids Hload Hruns Hids)
      as (w1 & Hstep & Hw1 & Hc1).
    rewrite Hstep. cbv beta iota delta [ok].
    destruct (IH (a + 1) b (Some (a + 1)) w1 (ids ++ [a + 1])%list ltac:(lia))
      as (w' & version' & Hloop & Hw' & Hc').
    + rewrite Hw1. reflexivity.
    + intros k Hk. apply Hall. lia.
    + exists w', version'. rewrite Hloop. split; [reflexivity|]. split.
      { rewrite Hw', Hw1. cbn [journal]. rewrite <- !app_assoc. reflexivity. }
      intros _.
      destruct (Z.lt_ge_cases (a + 1) b) as [Hlt|Hge]; [exact (Hc' Hlt)|].
      rewrite (xrange_empty (a + 1) b Hge) in Hloop. cbn [upgrade_loop] in Hloop.
      inversion Hloop; subst. exact Hc1.
Qed.

(** The largest id after the records of [v+1 .. latest] have been added. *)
Lemma max_id_after_upgrades (ids : list Z) (v latest : Z) :
  v = match max_id ids with Some m => m | None => 0 end ->
  0 <= v -> v < latest ->
  max_id (ids ++ map (fun i => i + 1) (xrange v latest)) = Some latest.
Proof.
  intros Hv Hnonneg Hlt.
  pose proof (max_id_spec ids) as Hold.
  pose proof (max_id_spec (ids ++ map (fun i => i + 1) (xrange v latest))) as Hnew.
  assert (Hin : In latest (ids ++ map (fun i => i + 1) (xrange v latest))).
  { apply in_or_app. right. apply in_map_iff. exists (latest - 1).
    split; [lia|]. apply in_xrange. lia. }
  destruct (max_id (ids ++ _)) as [m|]; [|rewrite Hnew in Hin; contradiction].
  destruct Hnew as [Hm Hmax]. f_equal.
  apply Z.le_antisymm; [|exact (Hmax latest Hin)].
  apply in_app_or in Hm. destruct Hm as [Hm|Hm].
  - destruct (max_id ids) as [m0|]; [|subst ids; contradiction].
    destruct Hold as [_ Hbound]. specialize (Hbound m Hm). lia.
  - apply in_map_iff in Hm. destruct Hm as (i & <- & Hi).
    apply in_xrange in Hi. lia.
Qed.

(** X18.  The loop of [perform_upgrade] on a database whose changelog table
    exists: when the active version [v] is below the latest available one
    and every version in between loads and runs, the versions [v+1 ..
    latest] are applied in increasing order, one record each, everything is
    committed, the result is 0 and the active version is [latest]. *)
Lemma perform_upgrade_applies_pending (w : world contents) (ids : list Z)
  (v latest : Z) :
  changelog (working (conn w)) = Some ids ->
  v = match max_id ids with Some m => m | None => 0 end ->
  0 <= v ->
  get_latest_upgrade_version fs self = ok latest ->
  v < latest ->
  (forall k, v < k <= latest ->
     load_upgrade fs self k = ok (scripts_of k) /\ Forall runs (scripts_of k)) ->
  exists w',
    perform_upgrade contents db_engine fs self w = (ok 0, w')
    /\ working (conn w')
       = {| changelog := Some (ids ++ map (fun i => i + 1) (xrange v latest))%list;
            journal := (journal (working (conn w))
                        ++ flat_map (fun i => map snd (scripts_of (i + 1)))
                                    (xrange v latest))%list |}
    /\ committed (conn w') = working (conn w')
    /\ fst (get_active_version contents db_engine self w') = ok latest.
Proof.
  intros Hids Hv Hnonneg Hlatest Hlt Hall.
  destruct (get_active_version_one_table tbl rejects true self w table_name)
    as (w1 & Hactive & Hw1 & Hc1 & Hout1).
  rewrite Hids, <- Hv in Hactive.
  rewrite (perform_upgrade_initialised contents db_engine fs self w w1 v latest
             Hactive ltac:(lia) Hlatest).
  replace (v - latest =? 0) with false by (symmetry; apply Z.eqb_neq; lia).
  match goal with |- context [upgrade_loop _ _ _ _ _ _ ?w2] =>
    destruct (upgrade_loop_success (Z.to_nat (latest - v)) v latest None w2 ids
                eq_refl) as (w' & version' & Hloop & Hw' & Hc')
  end.
  - cbn [conn]. rewrite Hw1. exact Hids.
  - exact Hall.
  - rewrite Hloop. exists w'. split; [reflexivity|].
    cbn [conn] in Hw'. rewrite Hw1 in Hw'.
    split; [exact Hw'|]. split; [exact (Hc' Hlt)|].
    destruct (get_active_version_one_table tbl rejects true self w' table_name)
      as (w3 & Hactive' & _).
    rewrite Hactive', Hw'. cbn [fst changelog].
    rewrite (max_id_after_upgrades ids v latest Hv Hnonneg Hlt). reflexivity.
Qed.


(** X19.  The same on a fresh database: the table is created, then the versions
    [1 .. latest] are applied. *)
Lemma perform_upgrade_from_scratch (db_type : string) (w : world contents)
  (latest : Z) :
  TABLE_STRUCTURE db_type = Some (snd (table self)) ->
  changelog (working (conn w)) = None ->
  get_latest_upgrade_version fs self = ok latest ->
  0 < latest ->
  (forall k, 0 < k <= latest ->
     load_upgrade fs self k = ok (scripts_of k) /\ Forall runs (scripts_of k)) ->
  exists w',
    perform_upgrade contents db_engine fs self w = (ok 0, w')
    /\ working (conn w')
       = {| changelog := Some (map (fun i => i + 1) (xrange 0 latest));
            journal := (journal (working (conn w))
                        ++ flat_map (fun i => map snd (scripts_of (i + 1)))
                                    (xrange 0 latest))%list |}
    /\ committed (conn w') = working (conn w')
    /\ fst (get_active_version contents db_engine self w') = ok latest.
Proof.
  intros Hcreate Hfresh Hlatest Hpos Hall.
  assert (Hquery : db_engine (select_max_query (get_table self)) (working (conn w))
                   = raise (DatabaseError ("no such table: " ++ tbl))).
  { rewrite table_name, engine_select, Hfresh. reflexivity. }
  pose proof (get_active_version_query_raises contents db_engine self w _ Hquery) as Hv.
  assert (Hmade : db_engine (create_query self) (working (conn w))
                  = ok ({| changelog := Some []; journal := journal (working (conn w)) |},
                        {| res_rows := []; res_rowcount := -1 |})).
  { unfold create_query. change (fst (table self)) with (get_table self).
    rewrite table_name, (engine_create tbl rejects true db_type _ _ Hcreate), Hfresh.
    reflexivity. }
  rewrite (perform_upgrade_uninitialised contents db_engine fs self w w latest _ _
             Hv Hmade Hlatest).
  replace (0 - latest =? 0) with false by (symmetry; apply Z.eqb_neq; lia).
  match goal with |- context [upgrade_loop _ _ _ _ _ _ ?w2] =>
    destruct (upgrade_loop_success (Z.to_nat (latest - 0)) 0 latest None w2 []
                eq_refl eq_refl Hall) as (w' & version' & Hloop & Hw' & Hc')
  end.
  rewrite Hloop. exists w'. split; [reflexivity|].
  cbn [conn working journal app] in Hw'.
  split; [exact Hw'|]. split; [exact (Hc' Hpos)|].
  destruct (get_active_version_one_table tbl rejects true self w' table_name)
    as (w3 & Hactive' & _).
  rewrite Hactive', Hw'. cbn [fst changelog].
  pose proof (max_id_after_upgrades [] 0 latest eq_refl (Z.le_refl 0) Hpos) as Hmax.
  cbn [app] in Hmax. rewrite Hmax. reflexivity.
Qed.

End Pending.

(** ** A version that cannot be applied *)

Section Failing.

Import MiniDB.

Variable tbl : string.
Variable rejects : string -> bool.
Variable fs : FileSystem.
Variable self : SimpleUpgrader.
Hypothesis table_name : get_table self = tbl.

Notation "'db_engine'" := (engine tbl rejects true).
Notation "'runs'" :=
  (fun script : string * string =>
     forall db,
       db_engine (snd script) db
       = ok ({| changelog := changelog db;
                journal := (journal db ++ [snd script])%list |},
             {| res_rows := []; res_rowcount := -1 |})).

(** A version cannot be applied: its scripts do not load, or one of them is
    refused by the database after the ones before it have run. *)
Notation "'fails_with' e version" :=
  (load_upgrade fs self version = raise e
   \/ exists done name sql rest,
        load_upgrade fs self version = ok (done ++ (name, sql) :: rest)%list
        /\ Forall runs done
        /\ forall db, db_engine sql db = raise e)
  (at level 10, e at level 9, version at level 9).



Variable scripts_of : Z -> list (string * string).



End Failing.

(** ** Every outcome of a run *)

Section EveryOutcome.

Import MiniDB.

Variable tbl : string.
Variable rejects : string -> bool.
Variable counts_rows : bool.
Variable fs : FileSystem.
Variable self : SimpleUpgrader.
Hypothesis table_name : get_table self = tbl.

Notation "'db_engine'" := (engine tbl rejects counts_rows).

(** A script that leaves the changelog table alone. *)
Notation "'keeps_changelog'" :=
  (fun script : string * string =>
     forall db db' r,
       db_engine (snd script) db = ok (db', r) -> changelog db' = changelog db).

Lemma engine_insert_reported (version : Z) (db : contents) (ids : list Z) :
  changelog db = Some ids ->
  db_engine (insert_query tbl version) db
  = ok ({| changelog := Some (ids ++ [version])%list; journal := journal db |},
        {| res_rows := []; res_rowcount := if counts_rows then 1 else -1 |}).
Proof.
  intros Hids. unfold engine.
  replace (String.eqb (insert_query tbl version) (select_max_query tbl))
    with false by reflexivity.
  replace (creates_table tbl (insert_query tbl version)) with false by reflexivity.
  rewrite parse_insert_query, Hids. reflexivity.
Qed.

Lemma max_id_of_greater (ids : list Z) (version : Z) :
  (forall i, In i ids -> i < version) ->
  max_id (ids ++ [version]) = Some version.
Proof.
  intros Hless.
  pose proof (max_id_spec (ids ++ [version])) as Hnew.
  destruct (max_id (ids ++ [version])) as [m|].
  - destruct Hnew as [Hm Hmax]. f_equal.
    assert (Hv : version <= m) by (apply Hmax, in_or_app; right; left; reflexivity).
    apply in_app_or in Hm. destruct Hm as [Hm|[<-|[]]]; [|reflexivity].
    specialize (Hless m Hm). lia.
  - destruct ids; discriminate.
Qed.

(** X21.  Recording a version and reading the active version back: on a
    changelog whose ids are all below [version], [create_version_record]
    adds one row, commits nothing, and [get_active_version] then returns
    [version]. *)
Theorem recorded_version_is_read_back (version : Z) (ids : list Z)
  (w : world contents) :
  changelog (working (conn w)) = Some ids ->
  (forall i, In i ids -> i < version) ->
  exists w1 w2,
    create_version_record contents db_engine self version w = (ok tt, w1)
    /\ changelog (working (conn w1)) = Some (ids ++ [version])%list
    /\ journal (working (conn w1)) = journal (working (conn w))
    /\ committed (conn w1) = committed (conn w)
    /\ get_active_version contents db_engine self w1 = (ok version, w2).
Proof.
  intros Hids Hless.
  unfold create_version_record, cursor_execute.
  rewrite table_name, (engine_insert_reported version _ ids Hids).
  cbv beta iota delta [ok].
  match goal with |- exists w1 w2, (_, ?w0) = _ /\ _ =>
    exists w0;
    destruct (get_active_version_one_table tbl rejects counts_rows self w0 table_name)
      as (w2 & Hread & _)
  end.
  exists w2. split; [reflexivity|].
  cbn [conn working committed changelog journal] in *.
  rewrite (max_id_of_greater ids version Hless) in Hread.
  repeat split. exact Hread.
Qed.

Lemma apply_upgrade_keeps_changelog (scripts : list (string * string)) :
  Forall keeps_changelog scripts ->
  forall w : world contents,
    changelog (working (conn (snd (apply_upgrade contents db_engine scripts w))))
    = changelog (working (conn w))
    /\ committed (conn (snd (apply_upgrade contents db_engine scripts w)))
       = committed (conn w).
Proof.
  induction 1 as [|script rest Hscript _ IH]; intros w; [split; reflexivity|].
  cbn [apply_upgrade]. unfold bindM, cursor_execute, print.
  destruct (db_engine (snd script) (working (conn w))) as [e|[db r]] eqn:Hexec;
    [split; reflexivity|].
  cbv beta iota delta [ok].
  match goal with |- context [apply_upgrade _ _ rest ?w1] =>
    destruct (IH w1) as [Hw Hc]
  end.
  rewrite Hw, Hc. cbn [conn working committed].
  split; [exact (Hscript _ _ _ Hexec)|reflexivity].
Qed.

(** One turn of the loop: either the version is recorded and committed
    (with or without the complaint about the row count), or nothing is
    committed. *)
Lemma upgrade_to_outcome (version : Z) (ids : list Z) (w w' : world contents)
  (r : result unit) :
  changelog (working (conn w)) = Some ids ->
  (forall scripts,
     load_upgrade fs self version = ok scripts -> Forall keeps_changelog scripts) ->
  upgrade_to contents db_engine fs self version w = (r, w') ->
  (changelog (working (conn w')) = Some (ids ++ [version])%list
   /\ committed (conn w') = working (conn w')
   /\ (r = ok tt \/ r = raise (Exception "could not record the upgrade")))
  \/ (committed (conn w') = committed (conn w) /\ exists e, r = raise e).
Proof.
  intros Hids Hkeep.
  unfold upgrade_to, bindM at 1, liftE.
  destruct (load_upgrade fs self version) as [e|scripts] eqn:Hload.
  { intros H. injection H as <- <-. right. split; [reflexivity|eauto]. }
  unfold bindM at 1, print at 1. cbv beta iota delta [ok].
  match goal with |- context [bindM _ (apply_upgrade _ _ scripts) _ ?w1] =>
    destruct (apply_upgrade_keeps_changelog scripts
                (Hkeep scripts eq_refl) w1) as [Hw Hc];
    unfold bindM at 1;
    destruct (apply_upgrade contents db_engine scripts w1) as [[e|u] w2]
  end.
  - intros H. injection H as <- <-. right. cbn [fst snd conn] in *.
    split; [exact Hc|eauto].
  - cbn [fst snd conn] in Hw, Hc.
    unfold bindM at 1, create_version_record, cursor_execute.
    rewrite table_name.
    rewrite (engine_insert_reported version (working (conn w2)) ids)
      by (rewrite Hw; exact Hids).
    cbv beta iota delta [ok].
    unfold bindM at 1, connection_commit. cbv beta iota delta [ok].
    unfold bindM at 1, cursor_rowcount. cbv beta iota delta [ok].
    cbn [conn rowcount res_rowcount].
    destruct counts_rows; cbn; intros H; injection H as <- <-; left; cbn; auto.
Qed.

Lemma upgrade_loop_outcome (n : nat) :
  forall (a b : Z) (version version' : option Z) (w w' : world contents)
         (ids : list Z) (r : result unit),
    Z.to_nat (b - a) = n ->
    changelog (working (conn w)) = Some ids ->
    changelog (committed (conn w)) = Some ids ->
    (forall k scripts,
       a < k <= b ->
       load_upgrade fs self k = ok scripts -> Forall keeps_changelog scripts) ->
    upgrade_loop contents db_engine fs self (xrange a b) version w
    = ((version', r), w') ->
    exists k,
      a <= k <= Z.max a b
      /\ changelog (committed (conn w'))
         = Some (ids ++ map (fun i => i + 1) (xrange a k))%list
      /\ (forall u, r = inr u ->
            k = Z.max a b
            /\ changelog (working (conn w'))
               = Some (ids ++ map (fun i => i + 1) (xrange a k))%list).
Proof.
  induction n as [|n IH]; intros a b version version' w w' ids r Hn Hw Hc Hkeep.
  - rewrite (xrange_empty a b) by lia. cbn [upgrade_loop].
    intros H. injection H as <- <- <-.
    exists a. rewrite (xrange_empty a a) by lia. cbn [map]. rewrite app_nil_r.
    split; [lia|]. split; [exact Hc|]. intros _ _. split; [lia|exact Hw].
  - rewrite (xrange_step a b) by lia. cbn [upgrade_loop].
    destruct (upgrade_to contents db_engine fs self (a + 1) w) as [[e|u] w1] eqn:Hturn;
      pose proof (upgrade_to_outcome (a + 1) ids w w1 _ Hw
                    (fun scripts => Hkeep (a + 1) scripts ltac:(lia)) Hturn) as Hstep.
    + intros H. injection H as <- <- <-.
      destruct Hstep as [(Hw1 & Hc1 & _)|(Hc1 & _)].
      * exists (a + 1). rewrite (xrange_step a (a + 1)) by lia.
        rewrite (xrange_empty (a + 1) (a + 1)) by lia. cbn [map].
        split; [lia|]. split; [rewrite Hc1; exact Hw1|]. intros; discriminate.
      * exists a. rewrite (xrange_empty a a) by lia. cbn [map]. rewrite app_nil_r.
        split; [lia|]. split; [rewrite Hc1; exact Hc|]. intros; discriminate.
    + intros Hrest.
      destruct Hstep as [(Hw1 & Hc1 & _)|(_ & e & He)]; [|discriminate].
      destruct (IH (a + 1) b (Some (a + 1)) version' w1 w' (ids ++ [a + 1])%list r
                  ltac:(lia) Hw1 ltac:(rewrite Hc1; exact Hw1)
                  (fun k scripts Hk => Hkeep k scripts ltac:(lia)) Hrest)
        as (k & Hk & Hcommitted & Hok).
      exists k. split; [lia|].
      assert (Hrange : (ids ++ map (fun i => i + 1) (xrange a k)
                        = (ids ++ [a + 1]) ++ map (fun i => i + 1) (xrange (a + 1) k))%list).
      { rewrite (xrange_step a k) by lia. cbn [map]. rewrite <- app_assoc. reflexivity. }
      rewrite Hrange. split; [exact Hcommitted|].
      intros u' Hu. destruct (Hok u' Hu) as [Hmax Hworking].
      split; [lia|exact Hworking].
Qed.

Lemma active_version_of_prefix (w' : world contents) (ids : list Z) (v k : Z) :
  v = match max_id ids with Some m => m | None => 0 end ->
  0 <= v <= k ->
  changelog (working (conn w'))
  = Some (ids ++ map (fun i => i + 1) (xrange v k))%list ->
  fst (get_active_version contents db_engine self w') = ok k.
Proof.
  intros Hv Hk Hw'.
  destruct (get_active_version_one_table tbl rejects counts_rows self w' table_name)
    as (w2 & Hread & _).
  rewrite Hread, Hw'. cbn [fst]. unfold ok. f_equal.
  destruct (Z.eq_dec k v) as [->|Hne].
  - rewrite (xrange_empty v v) by lia. cbn [map]. rewrite app_nil_r. now rewrite <- Hv.
  - rewrite (max_id_after_upgrades ids v k Hv) by lia. reflexivity.
Qed.

(** Every run, on a database whose changelog table exists and with scripts
    that leave that table alone. *)
Lemma perform_upgrade_run (w w' : world contents) (ids : list Z) (v latest : Z)
  (r : result Z) :
  changelog (working (conn w)) = Some ids ->
  changelog (committed (conn w)) = Some ids ->
  v = match max_id ids with Some m => m | None => 0 end ->
  0 <= v ->
  get_latest_upgrade_version fs self = ok latest ->
  (forall version scripts,
     v < version <= latest ->
     load_upgrade fs self version = ok scripts -> Forall keeps_changelog scripts) ->
  perform_upgrade contents db_engine fs self w = (r, w') ->
  exists status k,
    r = ok status
    /\ (status = 0 \/ status = 1)
    /\ v <= k <= Z.max v latest
    /\ changelog (committed (conn w'))
       = Some (ids ++ map (fun i => i + 1) (xrange v k))%list
    /\ changelog (working (conn w'))
       = Some (ids ++ map (fun i => i + 1) (xrange v k))%list
    /\ (status = 0 -> k = Z.max v latest)
    /\ (status = 1 -> working (conn w') = committed (conn w')).
Proof.
  intros Hw Hc Hv Hnonneg Hlatest Hkeep.
  assert (Hne : v <> -1) by lia.
  destruct (get_active_version_one_table tbl rejects counts_rows self w table_name)
    as (w1 & Hactive & Hw1 & Hc1 & _).
  rewrite Hw, <- Hv in Hactive.
  rewrite (perform_upgrade_initialised contents db_engine fs self w w1 v latest
             Hactive Hne Hlatest).
  destruct (v - latest =? 0) eqn:Hdiff.
  - apply Z.eqb_eq in Hdiff. intros H. injection H as <- <-.
    exists 0, v. split; [reflexivity|]. cbn [conn].
    rewrite (xrange_empty v v) by lia. cbn [map]. rewrite app_nil_r.
    split; [left; reflexivity|]. split; [lia|]. split; [rewrite Hc1; exact Hc|].
    split; [rewrite Hw1; exact Hw|]. split; [lia|intros; discriminate].
  - match goal with |- context [upgrade_loop _ _ _ _ _ _ ?w2] =>
      destruct (upgrade_loop contents db_engine fs self (xrange v latest) None w2)
        as [[version [e|u]] wl] eqn:Hrun;
      destruct (upgrade_loop_outcome (Z.to_nat (latest - v)) v latest None version
                  w2 wl ids _ eq_refl
                  ltac:(cbn [conn]; rewrite Hw1; exact Hw)
                  ltac:(cbn [conn]; rewrite Hc1; exact Hc) Hkeep Hrun)
        as (k & Hk & Hcommitted & Hok)
    end.
    + unfold bindM, connection_rollback, print, retM. cbv beta iota delta [ok].
      intros H. injection H as <- <-.
      exists 1, k. split; [reflexivity|]. cbn [conn committed working].
      split; [right; reflexivity|]. split; [exact Hk|]. split; [exact Hcommitted|].
      split; [exact Hcommitted|]. split; [intros; discriminate|reflexivity].
    + intros H. injection H as <- <-.
      destruct (Hok u eq_refl) as [Hmax Hworking].
      exists 0, k. split; [reflexivity|].
      split; [left; reflexivity|]. split; [exact Hk|]. split; [exact Hcommitted|].
      split; [exact Hworking|]. split; [intros _; exact Hmax|intros; discriminate].
Qed.

(** X22.  Whatever the run does, the changelog stays a gap-free record.  On
    a database whose changelog table exists, with scripts that leave that
    table alone, [perform_upgrade] never raises: it returns 0 or 1.
    Afterwards the changelog is the old one followed by the versions
    [v+1 .. k] in order, for some [k] from the active version [v] up to the
    latest one, so no version is skipped and none is recorded twice, and
    [get_active_version] returns [k].  When the result is 0 every pending
    version is recorded; when it is 1 nothing is left pending. *)
Theorem perform_upgrade_records_a_prefix (w : world contents) (ids : list Z)
  (v latest : Z) :
  changelog (working (conn w)) = Some ids ->
  changelog (committed (conn w)) = Some ids ->
  v = match max_id ids with Some m => m | None => 0 end ->
  0 <= v ->
  get_latest_upgrade_version fs self = ok latest ->
  (forall version scripts,
     v < version <= latest ->
     load_upgrade fs self version = ok scripts -> Forall keeps_changelog scripts) ->
  exists status w' k,
    perform_upgrade contents db_engine fs self w = (ok status, w')
    /\ (status = 0 \/ status = 1)
    /\ v <= k <= Z.max v latest
    /\ changelog (committed (conn w'))
       = Some (ids ++ map (fun i => i + 1) (xrange v k))%list
    /\ changelog (working (conn w'))
       = Some (ids ++ map (fun i => i + 1) (xrange v k))%list
    /\ (status = 0 -> k = Z.max v latest)
    /\ (status = 1 -> working (conn w') = committed (conn w'))
    /\ fst (get_active_version contents db_engine self w') = ok k.
Proof.
  intros Hw Hc Hv Hnonneg Hlatest Hkeep.
  destruct (perform_upgrade contents db_engine fs self w) as [r w'] eqn:Hrun.
  destruct (perform_upgrade_run w w' ids v latest r Hw Hc Hv Hnonneg Hlatest Hkeep Hrun)
    as (status & k & -> & Hstatus & Hk & Hcommitted & Hworking & Hzero & Hone).
  exists status, w', k. repeat (split; [assumption || reflexivity|]).
  exact (active_version_of_prefix w' ids v k Hv ltac:(lia) Hworking).
Qed.

(** X23.  Success is stable: when [perform_upgrade] has returned 0, calling
    it again at once returns 0 too, and changes nothing in the database. *)
Theorem perform_upgrade_again_is_idle (w w' : world contents) (ids : list Z)
  (v latest : Z) :
  changelog (working (conn w)) = Some ids ->
  changelog (committed (conn w)) = Some ids ->
  v = match max_id ids with Some m => m | None => 0 end ->
  0 <= v ->
  get_latest_upgrade_version fs self = ok latest ->
  (forall version scripts,
     v < version <= latest ->
     load_upgrade fs self version = ok scripts -> Forall keeps_changelog scripts) ->
  perform_upgrade contents db_engine fs self w = (ok 0, w') ->
  exists w'',
    perform_upgrade contents db_engine fs self w' = (ok 0, w'')
    /\ working (conn w'') = working (conn w')
    /\ committed (conn w'') = committed (conn w').
Proof.
  intros Hw Hc Hv Hnonneg Hlatest Hkeep Hrun.
  destruct (perform_upgrade_run w w' ids v latest _ Hw Hc Hv Hnonneg Hlatest Hkeep Hrun)
    as (status & k & Hstatus & _ & Hk & _ & Hworking & Hzero & _).
  injection Hstatus as <-. specialize (Hzero eq_refl).
  pose proof (active_version_of_prefix w' ids v k Hv ltac:(lia) Hworking) as Hactive.
  destruct (get_active_version_one_table tbl rejects counts_rows self w' table_name)
    as (w1 & Hagain & Hw1 & Hc1 & _).
  rewrite Hagain in Hactive. cbn [fst] in Hactive. injection Hactive as Hactive.
  rewrite Hactive in Hagain.
  rewrite (perform_upgrade_initialised contents db_engine fs self w' w1 k latest
             Hagain ltac:(lia) Hlatest).
  destruct (k - latest =? 0) eqn:Hdiff.
  - eexists. split; [reflexivity|]. cbn [conn]. split; assumption.
  - apply Z.eqb_neq in Hdiff. rewrite (xrange_empty k latest) by lia.
    cbn [upgrade_loop]. eexists. split; [reflexivity|]. cbn [conn]. split; assumption.
Qed.

End EveryOutcome.

(* ===================================================================== *)
(** * Runs on concrete inputs *)
(* ===================================================================== *)

Section Runs.

Import TreeFS MiniDB Inputs.

(** The three answers of [get_active_version], on a database without the
    table, with an empty table and with three recorded versions. *)
Lemma get_active_version_sentinels_witness :
  active_version_on accepts_all true (start fresh) = ok (-1)
  /\ active_version_on accepts_all true (start (at_version [])) = ok 0
  /\ active_version_on accepts_all true (start (at_version [1; 2; 3])) = ok 3.
Proof.
  unfold active_version_on.
  split; [|split].
  - destruct (get_active_version_sentinels contents (handle accepts_all true)
                sqlite_upgrader (start fresh)) as [H _].
    rewrite (H (DatabaseError "no such table: schema_changelog")); reflexivity.
  - destruct (get_active_version_sentinels contents (handle accepts_all true)
                sqlite_upgrader (start (at_version []))) as [_ [H _]].
    apply (H (at_version []) [] [] (-1)). reflexivity.
  - destruct (get_active_version_sentinels contents (handle accepts_all true)
                sqlite_upgrader (start (at_version [1; 2; 3]))) as [_ [_ H]].
    apply (H (at_version [1; 2; 3]) 3 [] [] (-1)). reflexivity.
Defined.

(** Versions 1 to 3 are all recorded and [up/1 .. up/3] exist: nothing is
    done. *)
Lemma perform_upgrade_nothing_to_do_witness :
  exists w',
    run (versions_up_to 3) accepts_all true (at_version [1; 2; 3]) = (ok 0, w')
    /\ conn w' = {| committed := at_version [1; 2; 3];
                    working := at_version [1; 2; 3];
                    fetched := []; rowcount := -1 |}
    /\ working (conn w') = at_version [1; 2; 3]
    /\ committed (conn w') = at_version [1; 2; 3]
    /\ stdout w' = ["Database currently at version 3."; "";
                    "No upgrades to be applied."].
Proof.
  refine (perform_upgrade_nothing_to_do contents (handle accepts_all true)
            (mount (versions_up_to 3)) sqlite_upgrader
            (start (at_version [1; 2; 3]))
            {| conn := {| committed := at_version [1; 2; 3];
                          working := at_version [1; 2; 3];
                          fetched := []; rowcount := -1 |};
               stdout := [] |} 3 _ _ _ _).
  - reflexivity.
  - discriminate.
  - reflexivity.
  - vm_compute. reflexivity.
Defined.

(** Five versions are recorded but only [up/1 .. up/3] are left. *)
Lemma perform_upgrade_ahead_of_latest_witness :
  xrange 5 3 = []
  /\ exists w',
      run (versions_up_to 3) accepts_all true (at_version [1; 2; 3; 4; 5]) = (ok 0, w')
      /\ conn w' = {| committed := at_version [1; 2; 3; 4; 5];
                      working := at_version [1; 2; 3; 4; 5];
                      fetched := []; rowcount := -1 |}
      /\ working (conn w') = at_version [1; 2; 3; 4; 5]
      /\ committed (conn w') = at_version [1; 2; 3; 4; 5]
      /\ stdout w' = ["Database currently at version 5."; ""].
Proof.
  refine (perform_upgrade_ahead_of_latest contents (handle accepts_all true)
            (mount (versions_up_to 3)) sqlite_upgrader
            (start (at_version [1; 2; 3; 4; 5]))
            {| conn := {| committed := at_version [1; 2; 3; 4; 5];
                          working := at_version [1; 2; 3; 4; 5];
                          fetched := []; rowcount := -1 |};
               stdout := [] |} 5 3 _ _ _ _ _).
  - reflexivity.
  - discriminate.
  - reflexivity.
  - vm_compute. reflexivity.
  - reflexivity.
Defined.

(** The first test of the suite: an empty upgrades directory and an empty
    in-memory database. *)
Lemma perform_upgrade_fresh_database_witness :
  active_version_on accepts_all true (start fresh) = ok (-1)
  /\ exists w',
      run upgrades_none accepts_all true fresh = (ok 0, w')
      /\ working (conn w') = at_version []
      /\ committed (conn w') = fresh
      /\ stdout w' = ["Database currently at version -1.";
                      "Create version table schema_changelog: version => 0";
                      ""; "No upgrades to be applied."]
      /\ active_version_on accepts_all true w' = ok 0.
Proof.
  refine (perform_upgrade_fresh_database TABLE_NAME accepts_all true
            (mount upgrades_none) "sqlite3" "up" sqlite_upgrader (start fresh) _ _ _).
  - reflexivity.
  - reflexivity.
  - reflexivity.
Defined.

(** The same run with the upgrader for [mysql]. *)
Example fresh_database_mysql :
  exists w',
    perform_upgrade contents (handle accepts_all true) (mount upgrades_none)
      mysql_upgrader (start fresh) = (ok 0, w')
    /\ working (conn w') = at_version []
    /\ fst (get_active_version contents (handle accepts_all true) mysql_upgrader w')
       = ok 0.
Proof.
  eexists. split; [vm_compute; reflexivity|].
  split; vm_compute; reflexivity.
Qed.

(** C1.  With the directories [up/1 .. up/10] and an empty changelog table
    (active version 0), [perform_upgrade] succeeds but stops at version 9:
    the directory names are sorted as strings, so the last one is ["9"].
    Nine records, with ids 1 to 9, are in the changelog. *)
Theorem perform_upgrade_ten_versions_reaches_nine :
  let outcome := run (versions_up_to 10) accepts_all true (at_version []) in
  active_version_on accepts_all true (start (at_version [])) = ok 0
  /\ listdir (mount (versions_up_to 10)) "up"
     = ok ["1"; "2"; "3"; "4"; "5"; "6"; "7"; "8"; "9"; "10"]
  /\ get_available_upgrades (mount (versions_up_to 10)) sqlite_upgrader
     = ok ["1"; "10"; "2"; "3"; "4"; "5"; "6"; "7"; "8"; "9"]
  /\ get_latest_upgrade_version (mount (versions_up_to 10)) sqlite_upgrader = ok 9
  /\ fst outcome = ok 0
  /\ changelog (committed (conn (snd outcome))) = Some [1; 2; 3; 4; 5; 6; 7; 8; 9]
  /\ active_version_on accepts_all true (snd outcome) = ok 9.
Proof. vm_compute. repeat split; reflexivity. Qed.

(** Up to nine versions the claim of C1 holds on this input family. *)
Example perform_upgrade_nine_versions :
  let outcome := run (versions_up_to 9) accepts_all true (at_version []) in
  fst outcome = ok 0
  /\ changelog (committed (conn (snd outcome))) = Some [1; 2; 3; 4; 5; 6; 7; 8; 9]
  /\ active_version_on accepts_all true (snd outcome) = ok 9.
Proof. vm_compute. repeat split; reflexivity. Qed.

(** C2.  A version directory without manifest that lists [10-create.sql]
    before [2-seed.sql]: both files get the same key, [True], so the sort
    keeps the listing order and [10-create] is loaded, and then applied,
    before [2-seed]. *)
Theorem directory_scan_keeps_listing_order :
  listdir (mount numbered) "up/1" = ok ["10-create.sql"; "2-seed.sql"]
  /\ script_prefix "10-create.sql" = ok true
  /\ script_prefix "2-seed.sql" = ok true
  /\ load numbered 1 = ok [("10-create", "CREATE TABLE t (v int)");
                           ("2-seed", "INSERT INTO s VALUES (1)")]
  /\ journal (committed (conn (snd (run numbered accepts_all true (at_version [])))))
     = ["CREATE TABLE t (v int)"; "INSERT INTO s VALUES (1)"].
Proof. vm_compute. repeat split; reflexivity. Qed.

(** C3.  A handle whose insert into the changelog does not report one row.
    The row count is read after the commit, so when the program raises
    "could not record the upgrade" the script of version 1 and its record
    are already committed: the rollback undoes nothing, the result is 1 and
    the active version is 1, not 0. *)
Theorem record_check_follows_commit :
  let outcome := run upgrades_basic accepts_all false (at_version []) in
  active_version_on accepts_all false (start (at_version [])) = ok 0
  /\ fst outcome = ok 1
  /\ rowcount (conn (snd outcome)) = -1
  /\ committed (conn (snd outcome))
     = {| changelog := Some [1]; journal := ["CREATE TABLE foo (id int)"] |}
  /\ working (conn (snd outcome)) = committed (conn (snd outcome))
  /\ active_version_on accepts_all false (snd outcome) = ok 1.
Proof. vm_compute. repeat split; reflexivity. Qed.

(** The other failure of C3: the second script of version 3 is refused.
    Versions 1 and 2 stay, the first script of version 3 is undone, the
    result is 1 and the active version is 2. *)
Example statement_failure_is_rolled_back :
  let outcome := run three_versions rejects_boom true (at_version []) in
  fst outcome = ok 1
  /\ working (conn (snd outcome))
     = {| changelog := Some [1; 2];
          journal := ["UPDATE t SET v = 1"; "UPDATE t SET v = 2"] |}
  /\ committed (conn (snd outcome)) = working (conn (snd outcome))
  /\ active_version_on rejects_boom true (snd outcome) = ok 2.
Proof. vm_compute. repeat split; reflexivity. Qed.

(** C5.  A manifest lists [a] and [up/1/a.sql] does not exist.  Reading the
    script raises [IOError] with errno 2; [load_upgrade] takes it for a
    missing manifest, scans the directory, meets [_manifest] there and
    fails with "invalid prefix". *)
Theorem missing_script_reported_as_invalid_prefix :
  open_read (mount manifest_missing_script) "up/1/_manifest" = ok ("a" ++ nl)
  /\ load_upgrade_script (mount manifest_missing_script) "up/1" "a"
     = raise (IOError 2 "[Errno 2] No such file or directory: 'up/1/a.sql'")
  /\ load manifest_missing_script 1 = raise (Exception "invalid prefix").
Proof. vm_compute. repeat split; reflexivity. Qed.

(** C7.  The leading token of [0-seed.sql] is the integer 0, which is not
    positive; [script_prefix] returns [False] instead of raising, and the
    version loads. *)
Theorem zero_prefix_is_accepted :
  script_prefix "0-seed.sql" = ok false
  /\ load zero_prefix 1 = ok [("0-seed", "INSERT INTO s VALUES (1)")].
Proof. vm_compute. repeat split; reflexivity. Qed.

(** The cases of C7 that do hold: no hyphen, and a token that is a word. *)
Example invalid_prefixes :
  script_prefix "_manifest" = raise (Exception "invalid prefix")
  /\ script_prefix "missing-prefix.sql" = raise (Exception "invalid prefix")
  /\ script_prefix "-5-x.sql" = raise (Exception "invalid prefix")
  /\ load missing_prefix 1 = raise (Exception "invalid prefix").
Proof. vm_compute. repeat split; reflexivity. Qed.

(** C8.  The manifest opens and lists [b], [a], [c], but [c.sql] is
    missing.  Loading through the manifest raises [IOError] with errno 2,
    and [load_upgrade] falls back to the directory scan although the
    manifest was found; what it returns is the scan's outcome. *)
Theorem missing_script_triggers_directory_scan :
  open_read (mount manifest_partial) "up/1/_manifest"
  = ok ("b" ++ nl ++ "a" ++ nl ++ "c" ++ nl)
  /\ scripts_from_manifestfile (mount manifest_partial) "up/1"
     = raise (IOError 2 "[Errno 2] No such file or directory: 'up/1/c.sql'")
  /\ scripts_from_upgradedir (mount manifest_partial) "up/1"
     = raise (Exception "invalid prefix")
  /\ load manifest_partial 1 = scripts_from_upgradedir (mount manifest_partial) "up/1".
Proof. vm_compute. repeat split; reflexivity. Qed.

(** The parts of C8 that do hold: manifest order with trailing white space
    removed, and "missing manifest file" for a manifest that is there but
    cannot be opened. *)
Example manifest_order :
  load with_manifest 1 = ok [("b", "SELECT 'b'"); ("a", "SELECT 'a'"); ("c", "SELECT 'c'")]
  /\ load manifest_sealed 1 = raise (Exception "missing manifest file").
Proof. vm_compute. repeat split; reflexivity. Qed.

(** The general statement about the loop, at three versions on the empty
    changelog table. *)
Lemma perform_upgrade_applies_pending_witness :
  exists w',
    run (versions_up_to 3) accepts_all true (at_version []) = (ok 0, w')
    /\ working (conn w')
       = {| changelog := Some [1; 2; 3];
            journal := ["UPDATE t SET v = 1"; "UPDATE t SET v = 2";
                        "UPDATE t SET v = 3"] |}
    /\ committed (conn w') = working (conn w')
    /\ active_version_on accepts_all true w' = ok 3.
Proof.
  refine (perform_upgrade_applies_pending TABLE_NAME accepts_all
            (mount (versions_up_to 3)) sqlite_upgrader eq_refl
            (fun k => [("1-step", "UPDATE t SET v = " ++ str_int k)])
            (start (at_version [])) [] 0 3 eq_refl eq_refl _ _ _ _).
  - lia.
  - vm_compute. reflexivity.
  - lia.
  - intros k Hk.
    assert (Hcases : k = 1 \/ k = 2 \/ k = 3) by lia.
    destruct Hcases as [ -> | [ -> | -> ] ];
      (split; [vm_compute; reflexivity|]);
      (constructor; [intros db; reflexivity|constructor]).
Defined.


(** ** The general statements at concrete inputs *)

(** The manifest file itself is such a name. *)
Lemma script_prefix_without_hyphen_witness :
  script_prefix "_manifest" = raise (Exception "invalid prefix").
Proof. exact (script_prefix_without_hyphen "_manifest" eq_refl). Defined.

(** A numbered script and the file of the test package. *)
Lemma script_prefix_of_token_witness :
  script_prefix "10-create.sql" = ok true
  /\ script_prefix "missing-prefix.sql" = raise (Exception "invalid prefix").
Proof.
  split.
  - exact (script_prefix_of_token "10" "create.sql" eq_refl).
  - exact (script_prefix_of_token "missing" "prefix.sql" eq_refl).
Defined.

(** The manifest [b], [a], [c], with a blank after [b]. *)
Lemma load_upgrade_follows_manifest_witness :
  load with_manifest 1
  = ok [("b", "SELECT 'b'"); ("a", "SELECT 'a'"); ("c", "SELECT 'c'")]
  /\ map fst [("b", "SELECT 'b'"); ("a", "SELECT 'a'"); ("c", "SELECT 'c'")]
     = map rstrip (readlines ("b " ++ nl ++ "a" ++ nl ++ "c" ++ nl)).
Proof.
  refine (load_upgrade_follows_manifest (mount with_manifest) sqlite_upgrader 1
            ("b " ++ nl ++ "a" ++ nl ++ "c" ++ nl) _ _ _).
  - reflexivity.
  - reflexivity.
Defined.

(** A manifest that may not be opened: errno 13. *)
Lemma load_upgrade_manifest_unreadable_witness :
  load manifest_sealed 1 = raise (Exception "missing manifest file").
Proof.
  refine (load_upgrade_manifest_unreadable (mount manifest_sealed) sqlite_upgrader 1
            13 "[Errno 13] Permission denied: 'up/1/_manifest'" _ _).
  - reflexivity.
  - discriminate.
Defined.

(** The manifest lists [c], which is not there. *)
Lemma load_upgrade_missing_script_witness :
  load manifest_partial 1 = raise (Exception "invalid prefix").
Proof.
  refine (load_upgrade_missing_script manifest_partial sqlite_upgrader 1
            ("b" ++ nl ++ "a" ++ nl ++ "c" ++ nl)
            "[Errno 2] No such file or directory: 'up/1/c.sql'" _ _).
  - reflexivity.
  - reflexivity.
Defined.

(** Two files with prefix 0 among two with a positive one. *)
Lemma directory_scan_order_witness :
  scripts_from_upgradedir (mount mixed_prefixes) "up/1"
  = ok [("0-a", "SELECT 'a'"); ("0-d", "SELECT 'd'");
        ("3-c", "SELECT 'c'"); ("1-b", "SELECT 'b'")].
Proof.
  refine (eq_trans
            (directory_scan_order (mount mixed_prefixes) "up/1"
               ["3-c.sql"; "0-a.sql"; "1-b.sql"; "0-d.sql"] _ _) _).
  - reflexivity.
  - repeat constructor; eexists; reflexivity.
  - reflexivity.
Defined.

(** The package of the test suite. *)
Lemma directory_scan_rejects_listing_witness :
  scripts_from_upgradedir (mount missing_prefix) "up/1"
  = raise (Exception "invalid prefix").
Proof.
  refine (directory_scan_rejects_listing (mount missing_prefix) "up/1"
            ["missing-prefix.sql"] "missing-prefix.sql"
            (Exception "invalid prefix") _ _ _).
  - reflexivity.
  - left. reflexivity.
  - reflexivity.
Defined.

(** Two numbered scripts and no manifest. *)
Lemma load_upgrade_scans_directory_witness :
  load numbered 1
  = ok [("10-create", "CREATE TABLE t (v int)");
        ("2-seed", "INSERT INTO s VALUES (1)")].
Proof.
  refine (eq_trans
            (load_upgrade_scans_directory (mount numbered) sqlite_upgrader 1
               "[Errno 2] No such file or directory: 'up/1/_manifest'"
               ["10-create"; "2-seed"] _ _ _) _).
  - reflexivity.
  - reflexivity.
  - repeat constructor.
  - reflexivity.
Defined.

(** Ten version directories. *)
Lemma get_available_upgrades_sorted_witness :
  exists versions,
    get_available_upgrades (mount (versions_up_to 10)) sqlite_upgrader = ok versions
    /\ Permutation versions ["1"; "2"; "3"; "4"; "5"; "6"; "7"; "8"; "9"; "10"]
    /\ StronglySorted (fun a b => String.leb a b = true) versions.
Proof.
  exact (get_available_upgrades_sorted (mount (versions_up_to 10)) sqlite_upgrader
           ["1"; "2"; "3"; "4"; "5"; "6"; "7"; "8"; "9"; "10"] eq_refl).
Defined.

(** No version directory, and ten of them. *)
Lemma get_latest_upgrade_version_greatest_witness :
  get_latest_upgrade_version (mount upgrades_none) sqlite_upgrader = ok 0
  /\ exists greatest,
      In greatest ["1"; "2"; "3"; "4"; "5"; "6"; "7"; "8"; "9"; "10"]
      /\ (forall name,
            In name ["1"; "2"; "3"; "4"; "5"; "6"; "7"; "8"; "9"; "10"] ->
            String.leb name greatest = true)
      /\ get_latest_upgrade_version (mount (versions_up_to 10)) sqlite_upgrader
         = int greatest.
Proof.
  split.
  - exact (proj1 (get_latest_upgrade_version_greatest (mount upgrades_none)
                    sqlite_upgrader [] eq_refl) eq_refl).
  - apply (proj2 (get_latest_upgrade_version_greatest (mount (versions_up_to 10))
                    sqlite_upgrader
                    ["1"; "2"; "3"; "4"; "5"; "6"; "7"; "8"; "9"; "10"] eq_refl)).
    discriminate.
Defined.

(** Three names of two digits, listed out of order. *)
Lemma get_latest_upgrade_version_equal_width_witness :
  exists latest,
    get_latest_upgrade_version (mount padded_versions) sqlite_upgrader = ok latest
    /\ (exists name, In name ["02"; "10"; "01"] /\ digits name = Some latest)
    /\ (forall name k, In name ["02"; "10"; "01"] -> digits name = Some k -> k <= latest).
Proof.
  refine (get_latest_upgrade_version_equal_width (mount padded_versions)
            sqlite_upgrader ["02"; "10"; "01"] 2 _ _ _).
  - reflexivity.
  - discriminate.
  - intros name [<-|[<-|[<-|[]]]]; (split; [reflexivity|eexists; reflexivity]).
Defined.

(** On a database without the changelog table the query raises. *)
Lemma get_active_version_reads_only_witness :
  snd (get_active_version contents (handle accepts_all true) sqlite_upgrader (start fresh))
  = start fresh.
Proof.
  exact (proj1 (proj2 (proj2 (get_active_version_reads_only contents
                                (handle accepts_all true) sqlite_upgrader (start fresh))))
           (DatabaseError "no such table: schema_changelog") eq_refl).
Defined.

(** The run in which the third version is refused. *)
Lemma perform_upgrade_failure_rolls_back_witness :
  working (conn (snd (run three_versions rejects_boom true (at_version []))))
  = committed (conn (snd (run three_versions rejects_boom true (at_version [])))).
Proof.
  refine (perform_upgrade_failure_rolls_back contents (handle rejects_boom true)
            (mount three_versions) sqlite_upgrader (start (at_version []))
            (snd (run three_versions rejects_boom true (at_version []))) _).
  vm_compute. reflexivity.
Defined.

(** Version 3 recorded after versions 1 and 2. *)
Lemma recorded_version_is_read_back_witness :
  exists w1 w2,
    create_version_record contents (handle accepts_all true) sqlite_upgrader 3
      (start (at_version [1; 2])) = (ok tt, w1)
    /\ changelog (working (conn w1)) = Some [1; 2; 3]
    /\ journal (working (conn w1)) = []
    /\ committed (conn w1) = at_version [1; 2]
    /\ get_active_version contents (handle accepts_all true) sqlite_upgrader w1
       = (ok 3, w2).
Proof.
  refine (recorded_version_is_read_back TABLE_NAME accepts_all true sqlite_upgrader
            eq_refl 3 [1; 2] (start (at_version [1; 2])) eq_refl _).
  intros i [<-|[<-|[]]]; lia.
Defined.

(** Three versions on a database without the changelog table. *)
Lemma perform_upgrade_from_scratch_witness :
  exists w',
    run (versions_up_to 3) accepts_all true fresh = (ok 0, w')
    /\ working (conn w')
       = {| changelog := Some [1; 2; 3];
            journal := ["UPDATE t SET v = 1"; "UPDATE t SET v = 2";
                        "UPDATE t SET v = 3"] |}
    /\ committed (conn w') = working (conn w')
    /\ active_version_on accepts_all true w' = ok 3.
Proof.
  refine (perform_upgrade_from_scratch TABLE_NAME accepts_all
            (mount (versions_up_to 3)) sqlite_upgrader eq_refl
            (fun k => [("1-step", "UPDATE t SET v = " ++ str_int k)])
            "sqlite3" (start fresh) 3 eq_refl eq_refl _ _ _).
  - vm_compute. reflexivity.
  - lia.
  - intros k Hk.
    assert (Hcases : k = 1 \/ k = 2 \/ k = 3) by lia.
    destruct Hcases as [ -> | [ -> | -> ] ];
      (split; [vm_compute; reflexivity|]);
      (constructor; [intros db; reflexivity|constructor]).
Defined.

(** Three versions of which the third is refused. *)
Lemma perform_upgrade_records_a_prefix_witness :
  exists status w' k,
    run three_versions rejects_boom true (at_version []) = (ok status, w')
    /\ (status = 0 \/ status = 1)
    /\ 0 <= k <= 3
    /\ changelog (committed (conn w')) = Some (map (fun i => i + 1) (xrange 0 k))
    /\ changelog (working (conn w')) = Some (map (fun i => i + 1) (xrange 0 k))
    /\ (status = 0 -> k = 3)
    /\ (status = 1 -> working (conn w') = committed (conn w'))
    /\ active_version_on rejects_boom true w' = ok k.
Proof.
  refine (perform_upgrade_records_a_prefix TABLE_NAME rejects_boom true
            (mount three_versions) sqlite_upgrader eq_refl
            (start (at_version [])) [] 0 3 eq_refl eq_refl eq_refl _ _ _).
  - lia.
  - vm_compute. reflexivity.
  - intros version scripts Hversion Hload.
    assert (Hcases : version = 1 \/ version = 2 \/ version = 3) by lia.
    destruct Hcases as [ -> | [ -> | -> ] ];
      vm_compute in Hload; injection Hload as <-;
      repeat constructor; intros db db' r Hrun;
      vm_compute in Hrun; try discriminate;
      injection Hrun as <- _; reflexivity.
Defined.

(** Three versions applied, then a second call. *)
Lemma perform_upgrade_again_is_idle_witness :
  exists w'',
    perform_upgrade contents (handle accepts_all true) (mount (versions_up_to 3))
      sqlite_upgrader (snd (run (versions_up_to 3) accepts_all true (at_version [])))
    = (ok 0, w'')
    /\ working (conn w'')
       = working (conn (snd (run (versions_up_to 3) accepts_all true (at_version []))))
    /\ committed (conn w'')
       = committed (conn (snd (run (versions_up_to 3) accepts_all true (at_version [])))).
Proof.
  refine (perform_upgrade_again_is_idle TABLE_NAME accepts_all true
            (mount (versions_up_to 3)) sqlite_upgrader eq_refl
            (start (at_version []))
            (snd (run (versions_up_to 3) accepts_all true (at_version [])))
            [] 0 3 eq_refl eq_refl eq_refl _ _ _ _).
  - lia.
  - vm_compute. reflexivity.
  - intros version scripts Hversion Hload.
    assert (Hcases : version = 1 \/ version = 2 \/ version = 3) by lia.
    destruct Hcases as [ -> | [ -> | -> ] ];
      vm_compute in Hload; injection Hload as <-;
      repeat constructor; intros db db' r Hrun;
      vm_compute in Hrun; injection Hrun as <- _; reflexivity.
  - vm_compute. reflexivity.
Defined.

End Runs.
